(** * DAB bridge: request/response correlation, telemetry sessions, status envelopes

    A shallow embedding of the TypeScript sources
    - [lib/mqtt_client/client.ts]   (class [Client]),
    - [lib/dab/dab_device_base.ts]  (class [DabDeviceBase]),
    - [lib/dab_adb_bridge.ts]       (class [DabDevice]),
    with the properties of the design document stated and proved (or
    refuted) over it.

    JavaScript values are modelled by the inductive [json]; [undefined] is
    the [None] of [option json].  Numbers are rationals: every finite JSON
    number is one, and [Number.isInteger], [Math.floor], [>] and [<] are
    exact on them.  The asynchronous functions of the client and of the
    session manager are split at their [await]s: one definition per
    stretch of code that runs without suspension, so that the tasks of the
    event loop can be interleaved.  The handlers of the adb binding are
    given as they run when no other task touches the device in between. *)

From Stdlib Require Import ZArith QArith Qround Ascii String List Bool Lia.
From stdpp Require Import base option list gmap strings pretty.

Set Warnings "-register-all".

Local Open Scope string_scope.
Local Open Scope list_scope.

(** ** JavaScript values and the built-in operations the sources use *)

Module Js.

Inductive json : Type :=
| JNull
| JBool (b : bool)
| JNum (q : Q)
| JStr (s : string)
| JArr (items : list json)
| JObj (fields : list (string * json)).

(** An object literal: its own properties in insertion order. *)
Abbreviation object := (list (string * json)).

(** Thrown values: [Error], the client's [TimeoutError] (error.ts, status
    408) and whatever the transport or the device layer rejects with. *)
Inductive exn : Type :=
| Error (message : string)
| TimeoutError (message : string).

Definition message_of (e : exn) : string :=
  match e with Error m => m | TimeoutError m => m end.

(** The completion of a call: a normal value or a throw. *)
Inductive completion (A : Type) : Type :=
| Normal (a : A)
| Throw (e : exn).
Arguments Normal {A} a.
Arguments Throw {A} e.

(** [o.k] on an object literal's own properties ([undefined] when absent). *)
Fixpoint field (k : string) (o : object) : option json :=
  match o with
  | [] => None
  | (k', v) :: rest => if String.eqb k k' then Some v else field k rest
  end.

(** [o.k = v]: overwrite in place, or add at the end. *)
Fixpoint set_field (k : string) (v : json) (o : object) : object :=
  match o with
  | [] => [(k, v)]
  | (k', v') :: rest =>
      if String.eqb k k' then (k', v) :: rest else (k', v') :: set_field k v rest
  end.

(** [{...a, ...b}]. *)
Definition spread (a b : object) : object :=
  fold_left (fun acc kv => set_field (fst kv) (snd kv) acc) b a.

(** [v.k] for a value [v]: a [TypeError] on [null], [undefined] on the
    other primitives and on arrays (for the names the sources read, none
    of which is an array or prototype property). *)
Definition prop (v : json) (k : string) : completion (option json) :=
  match v with
  | JNull => Throw (Error "TypeError: Cannot read properties of null")
  | JObj o => Normal (field k o)
  | _ => Normal None
  end.

(** ToBoolean. *)
Definition truthy (v : option json) : bool :=
  match v with
  | None | Some JNull => false
  | Some (JBool b) => b
  | Some (JNum q) => negb (Qeq_bool q 0)
  | Some (JStr s) => negb (String.eqb s "")
  | Some (JArr _) | Some (JObj _) => true
  end.


Definition is_number (v : option json) : bool :=
  match v with Some (JNum _) => true | _ => false end.

Definition Array_isArray (v : option json) : bool :=
  match v with Some (JArr _) => true | _ => false end.

(** [Number.isInteger]: false on every non-number. *)
Definition Number_isInteger (v : option json) : bool :=
  match v with
  | Some (JNum q) => (Qnum q mod Z.pos (Qden q) =? 0)%Z
  | _ => false
  end.

(** [Math.floor]. *)
Definition Math_floor (q : Q) : Z := Qfloor q.

(** What the language runtime and the libraries outside the repository
    supply.  [None] from [JSON_parse] is a thrown [SyntaxError]; [None]
    from [StringToNumber] is [NaN]. *)
Class Runtime : Type := {
  JSON_parse : string -> option json;
  StringToNumber : string -> option Q;
  ToString : json -> string;
  toLowerCase : string -> string;
  js_add : json -> json -> json;
  (* util.ts: MQTT wildcards to EventEmitter2 wildcards *)
  convertPattern : string -> string;
  (* EventEmitter2: does a listener registered for [event] hear [topic]? *)
  event_matches : string -> string -> bool;
  (* EventEmitter2: the place of the listeners of [event] in the search
     that [emit(topic)] makes of the listener tree; at every level the
     branch of the exact segment comes before that of `*`, and that
     before the one of `**` *)
  visit_rank : string -> string -> nat
}.

Section WithRuntime.
Context `{Runtime}.

(** ToNumber ([None] is NaN). *)
Definition ToNumber (v : option json) : option Q :=
  match v with
  | None => None
  | Some JNull => Some 0%Q
  | Some (JBool b) => Some (if b then 1%Q else 0%Q)
  | Some (JNum q) => Some q
  | Some (JStr s) => StringToNumber s
  | Some (JArr l) => StringToNumber (ToString (JArr l))
  | Some (JObj o) => StringToNumber (ToString (JObj o))
  end.

(** [v > n] with a number on the right: false as soon as [v] is NaN. *)
Definition gt (v : option json) (n : Q) : bool :=
  match ToNumber v with
  | Some q => negb (Qle_bool q n)
  | None => false
  end.

End WithRuntime.

End Js.
Import Js.

(** ** The status envelope (dab_device_base.ts, [dabResponse]) *)

Module Envelope.

(** [dabResponse(status = 200, error?)]. *)
Definition dabResponse (status : Q) (error : option string) : completion object :=
  let response := [("status", JNum status)] in
  if negb (Math_floor (status / 100) =? 2)%Z then
    if negb (truthy (JStr <$> error)) then
      Throw (Error "Error message must be returned for non 2XX status results")
    else
      Normal (set_field "error" (JStr (default "" error)) response)
  else Normal response.

(** [this.dabResponse()]. *)
Definition dabResponse_default : completion object := dabResponse 200 None.

End Envelope.
Import Envelope.

(** ** The correlation layer (mqtt_client/client.ts, class [Client]) *)

Module Client.

(** Calls made on the wrapped MQTT client, oldest first. *)
Inductive transport_call : Type :=
| ClientSubscribe (topic : string)
| ClientUnsubscribe (topic : string)
| ClientPublish (topic : string) (msg : json) (options : object).

(** The callbacks held by the emitter: the closure that the [n]-th call of
    [request] passes to [subscribe], or a callback handed in from outside
    the class. *)
Inductive listener : Type :=
| RequestListener (n : nat)
| Callback (c : nat).

Definition listener_eqb (a b : listener) : bool :=
  match a, b with
  | RequestListener n, RequestListener m => Nat.eqb n m
  | Callback c, Callback d => Nat.eqb c d
  | _, _ => false
  end.

(** What a promise is rejected with: a message, or an error object. *)
Inductive thrown : Type :=
| ThrownValue (v : json)
| ThrownError (e : exn).

(** The promise [request] returns. *)
Inductive promise : Type :=
| Pending
| Fulfilled (v : json)
| Rejected (t : thrown).

(** [subscriptionPromise]. *)
Inductive subscription : Type :=
| SubPending
| SubGranted
| SubRefused.

(** The closure state of one call of [request]. *)
Record request_state : Type := {
  rq_topic : string;          (* the [topic] argument *)
  rq_response : string;       (* `_response/${requestTopic}` *)
  rq_timeout : json;          (* [timeout] *)
  rq_promise : promise;
  rq_timer : bool;            (* armed by setTimeout; off once cleared or fired *)
  rq_subscription : subscription;
  rq_waiting : nat            (* reactions `s => s.end()` waiting for the subscription *)
}.

Record client : Type := {
  emitter : list (string * listener);   (* (event, callback), in registration order *)
  transport : list transport_call;
  requests : list request_state;
  received : list (nat * json * json);  (* calls of outside callbacks: (c, msg, pkt) *)
  microtasks : list nat                 (* reactions `s => s.end()` ready to run *)
}.

Definition new_client : client :=
  {| emitter := []; transport := []; requests := []; received := []; microtasks := [] |}.

Definition with_emitter (e : list (string * listener)) (st : client) : client :=
  {| emitter := e; transport := transport st; requests := requests st;
     received := received st; microtasks := microtasks st |}.

Definition with_transport (t : list transport_call) (st : client) : client :=
  {| emitter := emitter st; transport := t; requests := requests st;
     received := received st; microtasks := microtasks st |}.

Definition with_requests (r : list request_state) (st : client) : client :=
  {| emitter := emitter st; transport := transport st; requests := r;
     received := received st; microtasks := microtasks st |}.

Definition with_received (r : list (nat * json * json)) (st : client) : client :=
  {| emitter := emitter st; transport := transport st; requests := requests st;
     received := r; microtasks := microtasks st |}.

Definition with_microtasks (m : list nat) (st : client) : client :=
  {| emitter := emitter st; transport := transport st; requests := requests st;
     received := received st; microtasks := m |}.

Definition set_promise (p : promise) (r : request_state) : request_state :=
  {| rq_topic := rq_topic r; rq_response := rq_response r; rq_timeout := rq_timeout r;
     rq_promise := p; rq_timer := rq_timer r;
     rq_subscription := rq_subscription r; rq_waiting := rq_waiting r |}.

Definition set_timer (b : bool) (r : request_state) : request_state :=
  {| rq_topic := rq_topic r; rq_response := rq_response r; rq_timeout := rq_timeout r;
     rq_promise := rq_promise r; rq_timer := b;
     rq_subscription := rq_subscription r; rq_waiting := rq_waiting r |}.

Definition set_subscription (s : subscription) (r : request_state) : request_state :=
  {| rq_topic := rq_topic r; rq_response := rq_response r; rq_timeout := rq_timeout r;
     rq_promise := rq_promise r; rq_timer := rq_timer r;
     rq_subscription := s; rq_waiting := rq_waiting r |}.

Definition set_waiting (w : nat) (r : request_state) : request_state :=
  {| rq_topic := rq_topic r; rq_response := rq_response r; rq_timeout := rq_timeout r;
     rq_promise := rq_promise r; rq_timer := rq_timer r;
     rq_subscription := rq_subscription r; rq_waiting := w |}.

Definition update_request (n : nat) (f : request_state -> request_state) (st : client)
  : client :=
  with_requests (alter f n (requests st)) st.

(** [resolve] and [reject] of a promise act once: a settled promise stays. *)
Definition settle (p : promise) (r : request_state) : request_state :=
  match rq_promise r with
  | Pending => set_promise p r
  | _ => r
  end.

Definition resolve (n : nat) (v : json) : client -> client :=
  update_request n (settle (Fulfilled v)).

Definition reject (n : nat) (t : thrown) : client -> client :=
  update_request n (settle (Rejected t)).

Definition clearTimeout (n : nat) : client -> client :=
  update_request n (set_timer false).

Definition DEFAULT_PUBLISH_OPTIONS : object :=
  [("qos", JNum 2); ("retain", JBool false)].

Section WithRuntime.
Context `{Runtime}.

(** [publish(topic, msg, options)]: the call on the transport; its promise
    settles later ([publish_failed] below is its rejection). *)
Definition publish (topic : string) (msg : json) (options : object) (st : client)
  : client :=
  let options := spread (spread [] DEFAULT_PUBLISH_OPTIONS) options in
  with_transport (transport st ++ [ClientPublish topic msg options]) st.

(** [subscribe(topic, callback)] up to its [await]. *)
Definition subscribe (topic : string) (callback : listener) (st : client) : client :=
  let event := convertPattern topic in
  let st := with_emitter (emitter st ++ [(event, callback)]) st in
  with_transport (transport st ++ [ClientSubscribe topic]) st.

(** [emitter.removeListener(event, callback)]. *)
Fixpoint removeListener (event : string) (callback : listener)
  (l : list (string * listener)) : list (string * listener) :=
  match l with
  | [] => []
  | (e, c) :: rest =>
      if String.eqb e event && listener_eqb c callback then rest
      else (e, c) :: removeListener event callback rest
  end.

(** [emitter.listeners(event)]. *)
Definition listeners (event : string) (st : client) : list listener :=
  map snd (filter (fun ec => event_matches (fst ec) event = true) (emitter st)).

(** The [end] of the subscription object that [subscribe] returns, up to
    its [await]. *)
Definition end_subscription (topic : string) (callback : listener) (st : client)
  : client :=
  let event := convertPattern topic in
  let st := with_emitter (removeListener event callback (emitter st)) st in
  if (length (listeners event st) =? 0)%nat
  then with_transport (transport st ++ [ClientUnsubscribe topic]) st
  else st.

(** `subscriptionPromise.then(s => s.end())`: the reaction runs as a
    microtask when the subscription is granted already, waits for the
    grant otherwise, and never runs once the subscription was refused. *)
Definition then_end (n : nat) (st : client) : client :=
  match requests st !! n with
  | Some r =>
      match rq_subscription r with
      | SubGranted => with_microtasks (microtasks st ++ [n]) st
      | SubPending => update_request n (set_waiting (S (rq_waiting r))) st
      | SubRefused => st
      end
  | None => st
  end.

(** Running the queued reactions once the current task has returned. *)
Definition run_end (st : client) (n : nat) : client :=
  match requests st !! n with
  | Some r => end_subscription (rq_response r) (RequestListener n) st
  | None => st
  end.

Definition drain (st : client) : client :=
  fold_left run_end (microtasks st) (with_microtasks [] st).

(** The listener that [request] passes to [subscribe] (lines 121-129). *)
Definition on_response (n : nat) (msg : json) (st : client) : client * option exn :=
  let st := clearTimeout n st in
  match prop msg "status" with
  | Throw e => (st, Some e)
  | Normal status =>
      let st := if gt status 299 then reject n (ThrownValue msg) st
                else resolve n msg st in
      (then_end n st, None)
  end.

Definition invoke (l : listener) (msg pkt : json) (st : client) : client * option exn :=
  match l with
  | RequestListener n => on_response n msg st
  | Callback c => (with_received (received st ++ [(c, msg, pkt)]) st, None)
  end.

(** The listeners that [emit(topic)] calls, in the order of the calls:
    those that hear [topic], by the place of their event in the search
    of the listener tree, and in registration order among the listeners
    of one place. *)
Fixpoint visit_after (topic : string) (x : string * listener)
  (l : list (string * listener)) : list (string * listener) :=
  match l with
  | [] => [x]
  | y :: rest =>
      if (visit_rank (fst x) topic <? visit_rank (fst y) topic)%nat then x :: y :: rest
      else y :: visit_after topic x rest
  end.

Definition visited (topic : string) (l : list (string * listener))
  : list (string * listener) :=
  fold_left (fun acc x => visit_after topic x acc)
    (filter (fun ec => event_matches (fst ec) topic = true) l) [].

Definition heard (topic : string) (st : client) : list listener :=
  map snd (visited topic (emitter st)).

(** [emitter.emit(topic, msg, pkt)]: a listener that throws ends the
    loop. *)
Fixpoint emit_to (ls : list listener) (msg pkt : json) (st : client)
  : client * option exn :=
  match ls with
  | [] => (st, None)
  | l :: rest =>
      match invoke l msg pkt st with
      | (st', Some e) => (st', Some e)
      | (st', None) => emit_to rest msg pkt st'
      end
  end.

Definition emit (topic : string) (msg pkt : json) (st : client) : client * option exn :=
  emit_to (heard topic st) msg pkt st.

(** The payload [handleMessage] hands to the listeners (lines 61-74). *)
Definition parse_failure (msg : string) (pkt : json) : json :=
  JObj [("status", JNum 500); ("error", JStr "failed to parse msg");
        ("msg", JStr msg); ("packet", pkt)].

Definition response_of (msg : string) (pkt : json) : json :=
  if negb (String.length msg =? 0)%nat then
    match JSON_parse msg with
    | Some v => v
    | None => parse_failure msg pkt
    end
  else JObj [].

(** [handleMessage(topic, msg, pkt)], a task of its own: the emit, then
    the microtasks it queued. *)
Definition handleMessage (topic : string) (msg : string) (pkt : json) (st : client)
  : client * option exn :=
  let (st, e) := emit topic (response_of msg pkt) pkt st in
  (drain st, e).

Definition timeout_message (r : request_state) : string :=
  "Failed to receive response from " +:+ rq_topic r +:+ " within "
    +:+ ToString (rq_timeout r) +:+ "ms".

(** [request(topic, payload, options)], whose [uuidv4()] returned
    [requestId]: the whole body runs without suspension.  The new request
    is number [length (requests st)]. *)
Definition request (topic : string) (payload : json) (options : object)
  (requestId : string) (st : client) : client :=
  let requestTopic := topic +:+ "/" +:+ requestId in
  let timeout :=
    if truthy (field "timeoutMs" options)
    then default (JNum 5000) (field "timeoutMs" options) else JNum 5000 in
  let n := length (requests st) in
  (* const timer = setTimeout(..., timeout) *)
  let st := with_requests
      (requests st ++
         [{| rq_topic := topic; rq_response := "_response/" +:+ requestTopic;
             rq_timeout := timeout; rq_promise := Pending; rq_timer := true;
             rq_subscription := SubPending; rq_waiting := 0 |}]) st in
  (* const subscriptionPromise = this.subscribe(`_response/${requestTopic}`, ...) *)
  let st := subscribe ("_response/" +:+ requestTopic) (RequestListener n) st in
  (* this.publish(requestTopic, payload, options).catch(...) *)
  publish requestTopic payload options st.

(** The timer of request [n] fires (lines 117-120). *)
Definition timer_fired (n : nat) (st : client) : client :=
  match requests st !! n with
  | Some r =>
      if rq_timer r then
        let st := update_request n (set_timer false) st in
        let st := reject n (ThrownError (TimeoutError (timeout_message r))) st in
        drain (then_end n st)
      else st
  | None => st
  end.

(** The publish of request [n] is rejected with [err] (lines 131-134). *)
Definition publish_failed (n : nat) (err : exn) (st : client) : client :=
  let st := then_end n st in
  let st := reject n (ThrownError err) st in
  drain st.

(** The transport grants, or refuses, the subscription of request [n]:
    [subscriptionPromise] settles and the waiting reactions run. *)
Definition subscribe_granted (n : nat) (st : client) : client :=
  match requests st !! n with
  | Some r =>
      match rq_subscription r with
      | SubPending =>
          let st := update_request n
              (fun r => set_waiting 0 (set_subscription SubGranted r)) st in
          drain (with_microtasks (microtasks st ++ replicate (rq_waiting r) n) st)
      | _ => st
      end
  | None => st
  end.

Definition subscribe_refused (n : nat) (st : client) : client :=
  match requests st !! n with
  | Some r =>
      match rq_subscription r with
      | SubPending => update_request n (set_subscription SubRefused) st
      | _ => st
      end
  | None => st
  end.

(** *** The tasks of the event loop

    What can happen to a client, one task at a time: a call of [request]
    or of [subscribe] from outside, an inbound message, and the outcomes
    of the timers and of the transport's promises. *)

Inductive event : Type :=
| CallRequest (topic : string) (payload : json) (options : object) (requestId : string)
| CallSubscribe (topic : string) (c : nat)
| Inbound (topic : string) (msg : string) (pkt : json)
| TimerFires (n : nat)
| PublishFails (n : nat) (err : exn)
| SubscriptionGranted (n : nat)
| SubscriptionRefused (n : nat).

Definition react (st : client) (e : event) : client :=
  match e with
  | CallRequest topic payload options requestId => request topic payload options requestId st
  | CallSubscribe topic c => subscribe topic (Callback c) st
  | Inbound topic msg pkt => fst (handleMessage topic msg pkt st)
  | TimerFires n => timer_fired n st
  | PublishFails n err => publish_failed n err st
  | SubscriptionGranted n => subscribe_granted n st
  | SubscriptionRefused n => subscribe_refused n st
  end.

Definition run (es : list event) (st : client) : client := fold_left react es st.

End WithRuntime.

(** *** Notions used to state the properties *)

(** Every request listener held by the emitter belongs to a request that
    exists. *)
Definition well_formed (st : client) : Prop :=
  Forall (fun ec => match snd ec with
                    | RequestListener m => m < length (requests st)
                    | Callback _ => True
                    end) (emitter st).

(** The outside callbacks among a list of listeners. *)
Definition callbacks (ls : list listener) : list nat :=
  omap (fun l => match l with Callback c => Some c | RequestListener _ => None end) ls.

(** The state of the promise of request [n], if there is such a request. *)
Definition outcome (n : nat) (st : client) : option promise :=
  rq_promise <$> requests st !! n.

(** Two requests that differ at most in the reactions waiting for the
    subscription. *)
Definition same_outcome (a b : option request_state) : Prop :=
  rq_promise <$> a = rq_promise <$> b /\
  rq_timer <$> a = rq_timer <$> b /\
  rq_subscription <$> a = rq_subscription <$> b /\
  rq_topic <$> a = rq_topic <$> b /\
  rq_response <$> a = rq_response <$> b.

(** The request that [request] creates. *)
Definition fresh_request (topic requestId : string) (options : object) : request_state :=
  {| rq_topic := topic;
     rq_response := "_response/" +:+ (topic +:+ "/" +:+ requestId);
     rq_timeout := if truthy (field "timeoutMs" options)
                   then default (JNum 5000) (field "timeoutMs" options)
                   else JNum 5000;
     rq_promise := Pending; rq_timer := true;
     rq_subscription := SubPending; rq_waiting := 0 |}.

End Client.

(** ** The telemetry sessions (dab_device_base.ts, class [DabDeviceBase]) *)

Module DabDeviceBase.

(** What a call hands to [client.publish] as its payload: a value, or the
    producer function itself. *)
Inductive payload : Type :=
| Sample (v : json)
| FunctionObject.

(** A telemetry producer ([cb]): what the invocation that is number [k]
    among all producer invocations of the device ends with, the value
    of [await cb()] or what it throws.  (A producer that throws before
    it returns a promise and one whose promise is rejected both make the
    awaiting call reject; they are not told apart.) *)
Definition producer : Type := nat -> completion json.

(** The two callbacks given to [setInterval]. *)
Inductive interval_body : Type :=
| PublishResult (topic : string) (cb : producer)     (* publish(topic, await cb()) *)
| PublishCallback (topic : string) (cb : producer).  (* publish(topic, await cb)   *)

Record interval : Type := {
  iv_body : interval_body;
  iv_delay : option json
}.

Record device : Type := {
  telemetry : gmap string nat;          (* own properties of [this.telemetry] *)
  intervals : gmap nat interval;        (* the timers of setInterval not yet cleared *)
  next_timer : nat;
  published : list (string * payload);  (* calls of [this.client.publish] *)
  produced : nat;                        (* producer invocations so far *)
  rejections : nat -> option exn         (* the transport: what the promise of the
                                            publish number [k] is rejected with,
                                            if it is *)
}.

(** The state the constructor leaves: [this.telemetry = {}]; behind it a
    transport that accepts every publish. *)
Definition new_device : device :=
  {| telemetry := ∅; intervals := ∅; next_timer := 0; published := []; produced := 0;
     rejections := fun _ => None |}.

(** [this.telemetry] is an object literal, so a read of a name it does not
    own falls through to [Object.prototype]. *)
Definition Object_prototype_names : list string :=
  ["constructor"; "hasOwnProperty"; "isPrototypeOf"; "propertyIsEnumerable";
   "toLocaleString"; "toString"; "valueOf"; "__proto__";
   "__defineGetter__"; "__defineSetter__"; "__lookupGetter__"; "__lookupSetter__"].

Inductive slot : Type :=
| Timer (t : nat)
| Inherited.

(** [this.telemetry[key]] ([None] is [undefined]; every [slot] is truthy). *)
Definition telemetry_get (key : string) (st : device) : option slot :=
  match telemetry st !! key with
  | Some t => Some (Timer t)
  | None =>
      if existsb (String.eqb key) Object_prototype_names then Some Inherited else None
  end.

(** [clearInterval(v)]: nothing happens unless [v] is a live timer. *)
Definition clearInterval (v : option slot) (st : device) : device :=
  match v with
  | Some (Timer t) =>
      {| telemetry := telemetry st; intervals := delete t (intervals st);
         next_timer := next_timer st; published := published st;
         produced := produced st; rejections := rejections st |}
  | _ => st
  end.

(** [delete this.telemetry[key]]: own properties only. *)
Definition delete_telemetry (key : string) (st : device) : device :=
  {| telemetry := delete key (telemetry st); intervals := intervals st;
     next_timer := next_timer st; published := published st;
     produced := produced st; rejections := rejections st |}.

(** [this.telemetry[key] = setInterval(body, delay)]. *)
Definition setInterval_into (key : string) (body : interval_body) (delay : option json)
  (st : device) : device :=
  let t := next_timer st in
  {| telemetry := <[key := t]> (telemetry st);
     intervals := <[t := {| iv_body := body; iv_delay := delay |}]> (intervals st);
     next_timer := S t; published := published st; produced := produced st;
     rejections := rejections st |}.

(** [this.client.publish(topic, payload)]: the call, and what its promise
    is rejected with, if it is. *)
Definition client_publish (topic : string) (p : payload) (st : device)
  : device * option exn :=
  ({| telemetry := telemetry st; intervals := intervals st;
      next_timer := next_timer st; published := published st ++ [(topic, p)];
      produced := produced st; rejections := rejections st |},
   rejections st (length (published st))).

(** [cb()]. *)
Definition call_producer (cb : producer) (st : device) : completion json * device :=
  (cb (produced st),
   {| telemetry := telemetry st; intervals := intervals st;
      next_timer := next_timer st; published := published st;
      produced := S (produced st); rejections := rejections st |}).

(** An asynchronous call either returns (its promise settles) or is
    suspended at an [await]. *)
Inductive step (T : Type) : Type :=
| Return (r : completion object)
| Await (t : T).
Arguments Return {T} r.
Arguments Await {T} t.

(** A start call suspended at line 347 (370): what it still has to do,
    and what the awaited value settles with. *)
Record start_task : Type := {
  t_key : string;
  t_body : interval_body;
  t_frequency : option json;
  t_payload : completion payload
}.

Inductive start_await : Type :=
| AwaitingSample (t : start_task)    (* at `await cb()` / `await cb` *)
| AwaitingPublish (t : start_task) (rejected : option exn).
                                     (* at `await this.client.publish(...)` *)

(** [{ ...this.dabResponse(), ...{ frequency: data.frequency } }]. *)
Definition started (frequency : option json) : completion object :=
  match dabResponse_default with
  | Normal r =>
      Normal (spread (spread [] r)
                (match frequency with Some f => [("frequency", f)] | None => [] end))
  | Throw e => Throw e
  end.

Definition device_key : string := "device".

Section WithTopics.
(** dab_topics.js *)
Variable TELEMETRY_METRICS_TOPIC : string.

(** [startDeviceTelemetryImpl(data, cb)] up to its first [await]
    (lines 342-347). *)
Definition startDeviceTelemetryImpl_enter (data : object) (cb : producer) (st : device)
  : device * step start_await :=
  if negb (Number_isInteger (field "frequency" data)) then
    (st, Return (dabResponse 400
       (Some "'frequency' must be set as number of milliseconds between updates")))
  else if bool_decide (is_Some (telemetry_get device_key st)) then
    (st, Return (dabResponse 400
       (Some "Device telemetry is already started, stop it first")))
  else
    let (v, st) := call_producer cb st in
    (st, Await (AwaitingSample
       {| t_key := device_key;
          t_body := PublishResult TELEMETRY_METRICS_TOPIC cb;
          t_frequency := field "frequency" data;
          t_payload := match v with
                       | Normal v => Normal (Sample v)
                       | Throw e => Throw e
                       end |})).

(** [startAppTelemetryImpl(data, cb)] up to its first [await]
    (lines 359-370).  [cb] is a function by its type. *)
Definition startAppTelemetryImpl_enter (data : object) (cb : producer) (st : device)
  : device * step start_await :=
  match field "appId" data with
  | Some (JStr appId) =>
      if negb (is_number (field "frequency" data))
         || negb (Number_isInteger (field "frequency" data)) then
        (st, Return (dabResponse 400
           (Some "'frequency' must be set as number of milliseconds between updates")))
      else if bool_decide (is_Some (telemetry_get appId st)) then
        (st, Return (dabResponse 400
           (Some ("App telemetry is already started for " +:+ appId +:+ ", stop it first"))))
      else
        (st, Await (AwaitingSample
           {| t_key := appId;
              t_body := PublishCallback (TELEMETRY_METRICS_TOPIC +:+ "/" +:+ appId) cb;
              t_frequency := field "frequency" data;
              t_payload := Normal FunctionObject |}))
  | _ =>
      (st, Return (dabResponse 400
         (Some "'app' must be set as the application id to start sending telemetry")))
  end.

Definition body_topic (b : interval_body) : string :=
  match b with PublishResult t _ => t | PublishCallback t _ => t end.

(** A suspended start call goes on: the publish (lines 347, 370), then
    [setInterval] and the response (lines 349-352, 372-375).  When the
    awaited promise is rejected the call rejects with the same error and
    does nothing more. *)
Definition resume (a : start_await) (st : device) : device * step start_await :=
  match a with
  | AwaitingSample t =>
      match t_payload t with
      | Throw e => (st, Return (Throw e))
      | Normal p =>
          let (st, rejected) := client_publish (body_topic (t_body t)) p st in
          (st, Await (AwaitingPublish t rejected))
      end
  | AwaitingPublish t rejected =>
      match rejected with
      | Some e => (st, Return (Throw e))
      | None =>
          (setInterval_into (t_key t) (t_body t) (t_frequency t) st,
           Return (started (t_frequency t)))
      end
  end.

(** A start call that no other task interrupts. *)
Definition run_to_completion (r : device * step start_await)
  : device * completion object :=
  match r with
  | (st, Return c) => (st, c)
  | (st, Await a) =>
      match resume a st with
      | (st, Return c) => (st, c)
      | (st, Await a) =>
          match resume a st with
          | (st, Return c) => (st, c)
          | (st, Await _) => (st, Throw (Error "unreachable"))
          end
      end
  end.

Definition startDeviceTelemetryImpl (data : object) (cb : producer) (st : device)
  : device * completion object :=
  run_to_completion (startDeviceTelemetryImpl_enter data cb st).

Definition startAppTelemetryImpl (data : object) (cb : producer) (st : device)
  : device * completion object :=
  run_to_completion (startAppTelemetryImpl_enter data cb st).

(** One period of timer [t] elapses: its callback runs, if the timer is
    still set.  Nothing handles a rejection inside the callback. *)
Definition tick (t : nat) (st : device) : device :=
  match intervals st !! t with
  | Some iv =>
      match iv_body iv with
      | PublishResult topic cb =>
          let (v, st) := call_producer cb st in
          match v with
          | Normal v => fst (client_publish topic (Sample v) st)
          | Throw _ => st
          end
      | PublishCallback topic cb => fst (client_publish topic FunctionObject st)
      end
  | None => st
  end.

(** [stopDeviceTelemetryImpl()] (lines 574-582): no [await] inside. *)
Definition stopDeviceTelemetryImpl (st : device) : device * completion object :=
  match telemetry_get device_key st with
  | None => (st, dabResponse 400 (Some "Device telemetry not started"))
  | Some v =>
      let st := clearInterval (Some v) st in
      let st := delete_telemetry device_key st in
      (st, dabResponse_default)
  end.

(** [stopAppTelemetry(data)] (lines 606-617). *)
Definition stopAppTelemetry (data : object) (st : device) : device * completion object :=
  match field "appId" data with
  | Some (JStr appId) =>
      match telemetry_get appId st with
      | None => (st, dabResponse 400 (Some "Device telemetry for ${data.app} not started"))
      | Some v =>
          let st := clearInterval (Some v) st in
          let st := delete_telemetry appId st in
          (st, dabResponse_default)
      end
  | _ =>
      (st, dabResponse 400
         (Some "'app' must be set as the application id to stop sending telemetry"))
  end.

(** *** Calls that overlap

    Handlers are started as messages arrive and are not queued, so a call
    may enter while earlier ones are suspended.  A [system] is the device
    with the start calls made so far (returned or suspended) and the
    responses of the stop calls; an [event] is what the event loop runs
    next. *)

Inductive event : Type :=
| CallStartDevice (data : object) (cb : producer)
| CallStartApp (data : object) (cb : producer)
| Continue (i : nat)        (* the suspended start call number [i] goes on *)
| Elapse (t : nat)          (* a period of timer [t] elapses *)
| CallStopDevice
| CallStopApp (data : object).

Record system : Type := {
  dev : device;
  starts : list (step start_await);
  stops : list (completion object)
}.

Definition boot : system := {| dev := new_device; starts := []; stops := [] |}.

Definition react (s : system) (e : event) : system :=
  match e with
  | CallStartDevice data cb =>
      let (d, r) := startDeviceTelemetryImpl_enter data cb (dev s) in
      {| dev := d; starts := starts s ++ [r]; stops := stops s |}
  | CallStartApp data cb =>
      let (d, r) := startAppTelemetryImpl_enter data cb (dev s) in
      {| dev := d; starts := starts s ++ [r]; stops := stops s |}
  | Continue i =>
      match starts s !! i with
      | Some (Await a) =>
          let (d, r) := resume a (dev s) in
          {| dev := d; starts := <[i := r]> (starts s); stops := stops s |}
      | _ => s
      end
  | Elapse t => {| dev := tick t (dev s); starts := starts s; stops := stops s |}
  | CallStopDevice =>
      let (d, r) := stopDeviceTelemetryImpl (dev s) in
      {| dev := d; starts := starts s; stops := stops s ++ [r] |}
  | CallStopApp data =>
      let (d, r) := stopAppTelemetry data (dev s) in
      {| dev := d; starts := starts s; stops := stops s ++ [r] |}
  end.

Definition run (es : list event) (s : system) : system := fold_left react es s.

(** The timers that publish to [topic]. *)
Definition schedules (topic : string) (st : device) : list nat :=
  fst <$> filter (fun ti => body_topic (iv_body (snd ti)) = topic)
            (map_to_list (intervals st)).

End WithTopics.


End DabDeviceBase.

(** ** The adb binding (dab_adb_bridge.ts, class [DabDevice]) *)

Module DabDevice.

(** One implementation entry of the [appMap] configuration. *)
Record app_impl : Type := {
  package : option string;
  intent : option (list string);
  optionsPrefix : option (list string);
  friendlyName : option string
}.

(** A value of [appMap]: an entry, or an array of candidate entries (of
    which [listApps] picks one). *)
Inductive app_config : Type :=
| Impl (i : app_impl)
| Candidates (l : list app_impl).

(** [this.appMap[id]?.package] and [this.appMap[id].intent]: an array has
    neither property. *)
Definition config_package (c : option app_config) : option string :=
  match c with Some (Impl i) => package i | _ => None end.

Definition config_intent (c : option app_config) : option (list string) :=
  match c with Some (Impl i) => intent i | _ => None end.

Definition config_optionsPrefix (c : option app_config) : option (list string) :=
  match c with Some (Impl i) => optionsPrefix i | _ => None end.

(** What the class uses of adb/adb_commands.ts, adb/app_status.ts,
    util.ts and dab/dab_constants.ts: the device behind adb is a state
    that every command may change, and a command may throw. *)
Class Adb : Type := {
  adb : Type;
  app_status : Type;
  Stopped : app_status;
  Running : app_status;
  app_status_eqb : app_status -> app_status -> bool;
  adb_start : list json -> adb -> completion unit * adb;
  (* the value [status] resolves to, and its [state] *)
  adb_status : string -> adb -> completion (option (option app_status)) * adb;
  adb_stop : string -> adb -> completion unit * adb;
  adb_backgroundApp : string -> adb -> completion unit * adb;
  adbAppStatusToDabAppState : option app_status -> json;
  ApplicationState_Stopped : json;
  ApplicationState_Background : json
}.

(** A line written through [logger]. *)
Inductive log_line : Type :=
| Debug_ (m : string)
| Info_ (m : string)
| Warn_ (m : string)
| Error_ (m : string).

(** What a handler leaves behind: how its promise settles (with a
    response, or rejected), the device, the log, and the request payload
    (handlers assign to [data.appId]). *)
Record handled `{Adb} : Type := {
  response : completion object;
  device_after : adb;
  log : list log_line;
  data_after : json
}.

(** The request a handler is given is whatever [JSON.parse] made of the
    message.  Reading a property of [null] throws (here before the [try]
    of the handler, so that its promise is rejected); an object has its
    own properties and every other value has none of those read here. *)
Definition own (data : json) : object :=
  match data with JObj o => o | _ => [] end.

Definition thrown `{Adb} (e : exn) (data : json) (d : adb) : handled :=
  {| response := Throw e; device_after := d; log := []; data_after := data |}.

(** [{ ...this.dabResponse(), state: s }]. *)
Definition with_state (s : json) : completion object :=
  match dabResponse_default with
  | Normal r => Normal (spread (spread [] r) [("state", s)])
  | Throw e => Throw e
  end.

Definition is_status `{Adb} (s : option app_status) (x : app_status) : bool :=
  match s with Some y => app_status_eqb y x | None => false end.

(** [intent[intent.length - 1] = intent[intent.length - 1] + parameters]:
    on an empty array the assignment adds no element. *)
Fixpoint append_to_last `{Runtime} (l : list json) (p : json) : list json :=
  match l with
  | [] => []
  | [x] => [js_add x p]
  | x :: rest => x :: append_to_last rest p
  end.

Definition not_found (appId : string) : completion object :=
  dabResponse 404 (Some ("Couldn't find data for app " +:+ appId +:+ " in config file")).

Section WithConfig.
Context `{Runtime} `{Adb}.
(** [config.get("appMap")] *)
Variable appMap : gmap string app_config.

(** [launchApp(data)] (lines 132-159). *)
Definition launchApp (data : json) (d : adb) : handled :=
  match prop data "appId" with
  | Throw e => thrown e data d
  | Normal (Some (JStr appId)) =>
      let appId := toLowerCase appId in
      let o := set_field "appId" (JStr appId) (own data) in
      let data := JObj o in
      match config_intent (appMap !! appId) with
      | None =>
          {| response := not_found appId; device_after := d; log := [];
             data_after := data |}
      | Some intent0 =>
          let intent0 := JStr <$> intent0 in
          let parameters := field "parameters" o in
          let '(intent1, lg) :=
            match parameters with
            | Some (JArr ps) =>
                match config_optionsPrefix (appMap !! appId) with
                | Some pre =>
                    ((intent0 ++ (JStr <$> pre)) ++ ps,
                     [Debug_ "Adding optionsPrefix to intent array"])
                | None => (intent0 ++ ps, [])
                end
            | _ =>
                if truthy parameters then
                  (append_to_last intent0 (default JNull parameters),
                   [Debug_ "Appending parameters to last intent array value"])
                else (intent0, [])
            end in
          match adb_start intent1 d with
          | (Normal _, d) =>
              {| response := dabResponse_default; device_after := d; log := lg;
                 data_after := data |}
          | (Throw e, d) =>
              {| response := dabResponse 500 (Some (message_of e)); device_after := d;
                 log := lg ++ [Error_ (message_of e)]; data_after := data |}
          end
      end
  | _ =>
      {| response := dabResponse 400
           (Some "'appId' must be set as the application id to launch");
         device_after := d; log := []; data_after := data |}
  end.

(** [exitApp(data)] (lines 161-195). *)
Definition exitApp (data : json) (d : adb) : handled :=
  match prop data "appId" with
  | Throw e => thrown e data d
  | Normal (Some (JStr appId)) =>
      let appId := toLowerCase appId in
      let o := set_field "appId" (JStr appId) (own data) in
      let data := JObj o in
      let appPackage := config_package (appMap !! appId) in
      if negb (truthy (JStr <$> appPackage)) then
        {| response := not_found appId; device_after := d; log := [];
           data_after := data |}
      else
        let pkg := default "" appPackage in
        let failed (e : exn) (d : adb) (lg : list log_line) :=
          {| response := dabResponse 500 (Some (message_of e)); device_after := d;
             log := lg; data_after := data |} in
        match adb_status pkg d with
        | (Throw e, d) => failed e d []
        | (Normal st, d) =>
            let appStatus := mjoin st in
            if truthy (field "force" o) then
              if negb (is_status appStatus Stopped) then
                match adb_stop pkg d with
                | (Throw e, d) => failed e d []
                | (Normal _, d) =>
                    {| response := with_state ApplicationState_Stopped;
                       device_after := d; log := []; data_after := data |}
                end
              else
                {| response := with_state ApplicationState_Stopped;
                   device_after := d; log := []; data_after := data |}
            else if is_status appStatus Running then
              match adb_backgroundApp pkg d with
              | (Normal _, d) =>
                  {| response := with_state ApplicationState_Background;
                     device_after := d; log := []; data_after := data |}
              | (Throw _, d) =>
                  let lg := [Warn_ ("Failed to background " +:+ appId
                                      +:+ ", will try force closing it instead.")] in
                  match adb_stop pkg d with
                  | (Throw e, d) => failed e d lg
                  | (Normal _, d) =>
                      {| response := with_state ApplicationState_Stopped;
                         device_after := d; log := lg; data_after := data |}
                  end
              end
            else
              {| response := with_state (adbAppStatusToDabAppState appStatus);
                 device_after := d; log := []; data_after := data |}
        end
  | _ =>
      {| response := dabResponse 400
           (Some "'appId' must be set as the application id to exit");
         device_after := d; log := []; data_after := data |}
  end.

(** [getAppState(data)] (lines 197-215). *)
Definition getAppState (data : json) (d : adb) : handled :=
  match prop data "appId" with
  | Throw e => thrown e data d
  | Normal (Some (JStr appId)) =>
      let appId := toLowerCase appId in
      let o := set_field "appId" (JStr appId) (own data) in
      let data := JObj o in
      let appPackage := config_package (appMap !! appId) in
      if negb (truthy (JStr <$> appPackage)) then
        {| response := not_found appId; device_after := d; log := [];
           data_after := data |}
      else
        match adb_status (default "" appPackage) d with
        | (Throw e, d) =>
            {| response := dabResponse 500 (Some (message_of e)); device_after := d;
               log := []; data_after := data |}
        | (Normal None, d) =>
            {| response := dabResponse 500
                 (Some "Cannot read properties of undefined (reading 'state')");
               device_after := d; log := []; data_after := data |}
        | (Normal (Some appStatus), d) =>
            {| response := with_state (adbAppStatusToDabAppState appStatus);
               device_after := d; log := []; data_after := data |}
        end
  | _ =>
      {| response := dabResponse 400
           (Some "'appId' must be set as the application id to query");
         device_after := d; log := []; data_after := data |}
  end.

End WithConfig.

Section Telemetry.
Import DabDeviceBase.
Context `{Runtime}.
(** dab_topics.js, and [config.get("adb.minTelemetryMillis")] *)
Variable TELEMETRY_METRICS_TOPIC : string.
Variable platformMinFrequency : Q.



End Telemetry.

End DabDevice.

(** ** The dispatcher (mqtt_client/client.ts, [handle], [end], [wrap]) *)

Module Dispatcher.
Import Client.

(** What the [catch] block of the listener reads of a thrown error: its
    [status], and [JSON.stringify(serializeError(error))]. *)
Record failure : Type := {
  status_of_error : option json;
  serialized : string
}.


(** The subscription objects that [handle] has pushed, each with the
    topic and the callback its [end] closes over. *)
Record server : Type := {
  sv_client : client;
  handlerSubscriptions : list (string * nat)
}.

Section WithRuntime.
Context `{Runtime}.




(** [handle(topic, handler)] up to its [await], with [c] the callback
    that stands for the listener, and the push once the subscription is
    granted (lines 142, 163). *)
Definition handle_enter (topic : string) (c : nat) (sv : server) : server :=
  {| sv_client := subscribe (topic +:+ "/+") (Callback c) (sv_client sv);
     handlerSubscriptions := handlerSubscriptions sv |}.

Definition handle_granted (topic : string) (c : nat) (sv : server) : server :=
  {| sv_client := sv_client sv;
     handlerSubscriptions := handlerSubscriptions sv ++ [(topic +:+ "/+", c)] |}.

Definition handle (topic : string) (c : nat) (sv : server) : server :=
  handle_granted topic c (handle_enter topic c sv).

(** [end()] up to [this.client.end()] (line 167): the [end] of every
    handler subscription, in the order of the array. *)
Definition end_handlers (sv : server) : client :=
  fold_left (fun st tc => end_subscription (fst tc) (Callback (snd tc)) st)
    (handlerSubscriptions sv) (sv_client sv).

Definition new_server : server :=
  {| sv_client := new_client; handlerSubscriptions := [] |}.

Section Wire.
(** [JSON.stringify] *)
Variable JSON_stringify : json -> string.


End Wire.

End WithRuntime.

End Dispatcher.

(** ** Connecting (mqtt_client/client.ts, [connect]) *)

Module Connect.

(** The promise [connect] returns. *)
Inductive outcome : Type :=
| Waiting
| Connected
| Refused (error : exn).

(** The closure state of one call of [connect]. *)
Record connection : Type := {
  connected : bool;
  initialized : bool;
  onError_listening : bool;      (* [onError] is a listener of "error" *)
  result : outcome;
  closing : list exn;            (* [mqttClient.end().finally(() => reject(error))] under way *)
  clients : nat;                 (* [new Client(wrap(mqttClient))] *)
  onConnected_calls : nat
}.

(** After [mqtt.connect] and the two [on] calls (lines 215-226). *)
Definition opened : connection :=
  {| connected := false; initialized := false; onError_listening := true;
     result := Waiting; closing := []; clients := 0; onConnected_calls := 0 |}.

Definition settle (o : outcome) (c : connection) : connection :=
  {| connected := connected c; initialized := initialized c;
     onError_listening := onError_listening c;
     result := match result c with Waiting => o | r => r end;
     closing := closing c; clients := clients c;
     onConnected_calls := onConnected_calls c |}.

(** What the MQTT client does to the connection: it emits "error", it
    emits "connect" (again at every reconnect), or the promise of an
    [end()] that [onError] started settles. *)
Inductive event : Type :=
| EmitError (error : exn)
| EmitConnect
| EndSettled.

(** [onError] (lines 219-224). *)
Definition onError (error : exn) (c : connection) : connection :=
  {| connected := connected c; initialized := initialized c;
     onError_listening := false;
     result := result c;
     closing := if negb (connected c) && negb (initialized c)
                then closing c ++ [error] else closing c;
     clients := clients c; onConnected_calls := onConnected_calls c |}.

Section WithOptions.
(** [options.onConnected] after the [Object.assign] of lines 205-213:
    [None] when the caller gave a value that is not truthy (the default,
    a function that does nothing, is the total function that returns);
    otherwise what the call number [k] of it ends with, a return or a
    throw. *)
Variable onConnected : option (nat -> completion unit).

(** The listener of "connect" (lines 227-238).  When [onConnected]
    throws, the listener is left before line 237 and [initialized] stays
    as it is. *)
Definition onConnect (c : connection) : connection :=
  if negb (initialized c) then
    let c :=
      settle Connected
        {| connected := true; initialized := initialized c; onError_listening := false;
           result := result c; closing := closing c;
           clients := S (clients c); onConnected_calls := onConnected_calls c |} in
    match onConnected with
    | None =>
        {| connected := connected c; initialized := true;
           onError_listening := onError_listening c; result := result c;
           closing := closing c; clients := clients c;
           onConnected_calls := onConnected_calls c |}
    | Some f =>
        {| connected := connected c;
           initialized := match f (onConnected_calls c) with
                          | Normal _ => true
                          | Throw _ => initialized c
                          end;
           onError_listening := onError_listening c; result := result c;
           closing := closing c; clients := clients c;
           onConnected_calls := S (onConnected_calls c) |}
    end
  else
    {| connected := connected c; initialized := true;
       onError_listening := onError_listening c; result := result c;
       closing := closing c; clients := clients c;
       onConnected_calls := onConnected_calls c |}.

Definition react (c : connection) (e : event) : connection :=
  match e with
  | EmitError error => if onError_listening c then onError error c else c
  | EmitConnect => onConnect c
  | EndSettled =>
      match closing c with
      | [] => c
      | error :: rest =>
          settle (Refused error)
            {| connected := connected c; initialized := initialized c;
               onError_listening := onError_listening c; result := result c;
               closing := rest; clients := clients c;
               onConnected_calls := onConnected_calls c |}
      end
  end.

Definition run (es : list event) (c : connection) : connection := fold_left react es c.

(** *** Notions used to state the properties *)

(** What every state of a connection satisfies. *)
Definition coherent (c : connection) : Prop :=
  (initialized c = true -> connected c = true)
  /\ (connected c = true <-> 1 <= clients c)
  /\ onConnected_calls c = match onConnected with Some _ => clients c | None => 0 end
  /\ (connected c = true -> onError_listening c = false)
  /\ (onError_listening c = true -> closing c = [])
  /\ length (closing c) <= 1.

(** [onConnected] is absent or returns whenever it is called. *)
Definition quiet : Prop :=
  match onConnected with
  | None => True
  | Some f => forall k, exists u, f k = Normal u
  end.

(** [onConnected] throws whenever it is called. *)
Definition throwing : Prop :=
  match onConnected with
  | None => False
  | Some f => forall k, exists e, f k = Throw e
  end.

End WithOptions.

(** The "connect" events among a list of events. *)
Fixpoint connects (es : list event) : nat :=
  match es with
  | [] => 0
  | EmitConnect :: rest => S (connects rest)
  | _ :: rest => connects rest
  end.

End Connect.

(** ** The version topic (dab_device_base.ts, [version]) *)

Module Version.

(** [s.lastIndexOf(c)] for a one-character [c]: -1 when [s] has none. *)
Fixpoint lastIndexOf_from (s : string) (c : ascii) (i found : Z) : Z :=
  match s with
  | EmptyString => found
  | String a rest => lastIndexOf_from rest c (i + 1) (if Ascii.eqb a c then i else found)
  end.

Definition lastIndexOf (s : string) (c : ascii) : Z := lastIndexOf_from s c 0 (-1).

(** [s.substring(start, end)] on integers: both ends are clamped to
    [0 .. s.length] and swapped when out of order. *)
Definition substring (s : string) (start end_ : Z) : string :=
  let len := Z.of_nat (String.length s) in
  let clamp z := Z.min (Z.max z 0) len in
  let from := Z.min (clamp start) (clamp end_) in
  let to := Z.max (clamp start) (clamp end_) in
  String.substring (Z.to_nat from) (Z.to_nat (to - from)) s.

(** ToIntegerOrInfinity of a finite number or NaN. *)
Definition ToInteger (n : option Q) : Z :=
  match n with
  | Some q => Z.quot (Qnum q) (Z.pos (Qden q))
  | None => 0
  end.

Section WithRuntime.
Context `{Runtime}.

(** [version()], with [packageVersion] the [version] of package.json
    (lines 305-309).  The first argument of [substring] is the string
    itself, which is converted to a number. *)
Definition version (packageVersion : string) : object :=
  let dabVersion :=
    substring packageVersion (ToInteger (StringToNumber packageVersion))
      (lastIndexOf packageVersion "."%char) in
  [("status", JNum 200); ("versions", JArr [JStr dabVersion])].

End WithRuntime.

End Version.

(** ** The adb binding: the list of applications and the key presses
    (dab_adb_bridge.ts, [listApps], [keyPress], [healthCheck]) *)

Module Apps.
Import DabDevice.

(** [packageArr.includes(impl.package)]. *)
Definition installed (packageArr : list string) (i : app_impl) : bool :=
  match package i with
  | Some p => bool_decide (p ∈ packageArr)
  | None => false
  end.

(** An element of [appArr]; a [friendlyName] that is [undefined] leaves
    no property in the published JSON. *)
Definition application (appId : string) (i : app_impl) : json :=
  JObj ([("appId", JStr appId)]
        ++ match friendlyName i with Some f => [("friendlyName", JStr f)] | None => [] end
        ++ [("version", JStr "unknown")]).

Definition checking (appId : string) (i : app_impl) : log_line :=
  Debug_ ("Checking packages for appId: " +:+ appId +:+ " with package "
            +:+ default "undefined" (package i)).

(** The inner loop (lines 96-110) up to the candidate it stops at: the
    first candidate whose package is installed, and the lines logged
    before the assignment of line 99. *)
Fixpoint first_installed (packageArr : list string) (appId : string) (l : list app_impl)
  : option app_impl * list log_line :=
  match l with
  | [] => (None, [])
  | i :: rest =>
      if installed packageArr i then (Some i, [checking appId i])
      else
        let (r, lg) := first_installed packageArr appId rest in
        (r, [checking appId i; Debug_ "App not found, ignoring"] ++ lg)
  end.

(** The outer loop (lines 94-124) over the entries of [appMap] in the
    order of [Object.keys].  The object that [config.get] returns is
    immutable unless the configuration allows mutations: [frozen] is
    what the assignment of line 99 then throws, [None] when mutations
    are allowed.  The result is the map, the applications found
    ([appId] and entry) and the log, as the loop leaves them or as they
    are when the assignment throws, and what was thrown. *)
Fixpoint scan (frozen : option exn) (packageArr : list string)
  (entries : list (string * app_config))
  : list (string * app_config) * list (string * app_impl) * list log_line * option exn :=
  match entries with
  | [] => ([], [], [], None)
  | (appId, c) :: rest =>
      match c with
      | Candidates l =>
          match first_installed packageArr appId l with
          | (Some i, lg0) =>
              match frozen with
              | Some e => ((appId, c) :: rest, [], lg0, Some e)
              | None =>
                  let '(entries', found, lg, t) := scan frozen packageArr rest in
                  ((appId, Impl i) :: entries', (appId, i) :: found,
                   (lg0 ++ [Debug_ "App found, pushing to appArr"]) ++ lg, t)
              end
          | (None, lg0) =>
              let '(entries', found, lg, t) := scan frozen packageArr rest in
              ((appId, c) :: entries', found, lg0 ++ lg, t)
          end
      | Impl i =>
          let '(entries', found, lg, t) := scan frozen packageArr rest in
          if installed packageArr i then
            ((appId, c) :: entries', (appId, i) :: found,
             [checking appId i; Debug_ "App found, pushing to appArr"] ++ lg, t)
          else
            ((appId, c) :: entries', found,
             [checking appId i; Debug_ "App not found, ignoring"] ++ lg, t)
      end
  end.

(** What [listApps] leaves behind: the response, the device, the
    configuration it rewrote, the log. *)
Record listed `{Adb} : Type := {
  l_response : completion object;
  l_device : adb;
  l_appMap : list (string * app_config);
  l_log : list log_line
}.

Section WithAdb.
Context `{Runtime} `{Adb}.
(** the rest of adb/adb_commands.ts *)
Variable adb_getPackages : adb -> completion (list string) * adb.
Variable adb_sendKey : string -> adb -> completion unit * adb.
Variable adb_getDeviceUptimeSeconds : adb -> completion json * adb.
(** the config package: what an assignment into the configuration
    throws, [None] when the configuration allows mutations *)
Variable frozen : option exn.

(** [listApps()] (lines 90-130), on the entries of [this.appMap]. *)
Definition listApps (entries : list (string * app_config)) (d : adb) : listed :=
  match adb_getPackages d with
  | (Normal packageArr, d) =>
      match scan frozen packageArr entries with
      | (entries', found, lg, None) =>
          {| l_response :=
               match dabResponse_default with
               | Normal r =>
                   Normal (spread (spread [] r)
                             [("applications",
                               JArr ((fun ai => application (fst ai) (snd ai)) <$> found))])
               | Throw e => Throw e
               end;
             l_device := d; l_appMap := entries'; l_log := lg |}
      | (entries', found, lg, Some e) =>
          {| l_response := dabResponse 500 (Some (message_of e)); l_device := d;
             l_appMap := entries'; l_log := lg ++ [Error_ (message_of e)] |}
      end
  | (Throw e, d) =>
      {| l_response := dabResponse 500 (Some (message_of e)); l_device := d;
         l_appMap := entries; l_log := [Error_ (message_of e)] |}
  end.




End WithAdb.

(** *** Notions used to state the properties *)


End Apps.

(** ** The demonstration client: waiting for the reboot (the main script) *)

Module Demo.

(** How a [healthCheck] request ends: with a response that says healthy
    or not, or with a rejection. *)
Inductive health : Type :=
| Healthy
| Unhealthy
| Unanswered (e : exn).

(** The [while (rebooting)] loop, with [checks k] the end of the health
    check number [k]: how the loop ends, and the number of health checks
    it has made by then.  [fuel] is what is left of the 20 checks. *)
Fixpoint wait_for_reboot_from (checks : nat -> health) (fuel rebootHealthChecks : nat)
  : completion unit * nat :=
  match fuel with
  | 0 => (Throw (Error "Could not reestablish connection with device after restart"),
          rebootHealthChecks)
  | S fuel =>
      match checks rebootHealthChecks with
      | Healthy => (Normal tt, S rebootHealthChecks)
      | Unhealthy => wait_for_reboot_from checks fuel (S rebootHealthChecks)
      | Unanswered e => (Throw e, S rebootHealthChecks)
      end
  end.

Definition wait_for_reboot (checks : nat -> health) : completion unit * nat :=
  wait_for_reboot_from checks 20 0.

End Demo.

(** ** The key map of the adb binding (adb/adb_keymap.ts) *)

Module Keymap.

Inductive AndroidKeyCode : Type :=
| KEYCODE_HOME
| KEYCODE_BACK
| KEYCODE_0
| KEYCODE_1
| KEYCODE_2
| KEYCODE_3
| KEYCODE_4
| KEYCODE_5
| KEYCODE_6
| KEYCODE_7
| KEYCODE_8
| KEYCODE_9
| KEYCODE_STAR
| KEYCODE_POUND
| KEYCODE_DPAD_CENTER
| KEYCODE_POWER
| KEYCODE_VOLUME_UP
| KEYCODE_VOLUME_DOWN
| KEYCODE_DPAD_UP
| KEYCODE_DPAD_DOWN
| KEYCODE_DPAD_LEFT
| KEYCODE_DPAD_RIGHT
| KEYCODE_ENTER
| KEYCODE_MENU
| KEYCODE_SEARCH
| KEYCODE_MEDIA_PLAY_PAUSE
| KEYCODE_MEDIA_STOP
| KEYCODE_MEDIA_NEXT
| KEYCODE_MEDIA_PREVIOUS
| KEYCODE_MEDIA_REWIND
| KEYCODE_MEDIA_FAST_FORWARD
| KEYCODE_PAGE_UP
| KEYCODE_PAGE_DOWN
| KEYCODE_MOVE_HOME
| KEYCODE_MOVE_END
| KEYCODE_MEDIA_PLAY
| KEYCODE_MEDIA_PAUSE
| KEYCODE_MEDIA_RECORD
| KEYCODE_VOLUME_MUTE
| KEYCODE_INFO
| KEYCODE_CHANNEL_UP
| KEYCODE_CHANNEL_DOWN
| KEYCODE_GUIDE
| KEYCODE_CAPTIONS
| KEYCODE_PROG_RED
| KEYCODE_PROG_GREEN
| KEYCODE_PROG_YELLOW
| KEYCODE_PROG_BLUE
| KEYCODE_WAKEUP
| KEYCODE_MEDIA_SKIP_FORWARD
| KEYCODE_MEDIA_SKIP_BACKWARD.

(** The number of each member of the enum. *)
Definition value (c : AndroidKeyCode) : Z :=
  match c with
  | KEYCODE_HOME => 3
  | KEYCODE_BACK => 4
  | KEYCODE_0 => 7
  | KEYCODE_1 => 8
  | KEYCODE_2 => 9
  | KEYCODE_3 => 10
  | KEYCODE_4 => 11
  | KEYCODE_5 => 12
  | KEYCODE_6 => 13
  | KEYCODE_7 => 14
  | KEYCODE_8 => 15
  | KEYCODE_9 => 16
  | KEYCODE_STAR => 17
  | KEYCODE_POUND => 18
  | KEYCODE_DPAD_CENTER => 23
  | KEYCODE_POWER => 26
  | KEYCODE_VOLUME_UP => 24
  | KEYCODE_VOLUME_DOWN => 25
  | KEYCODE_DPAD_UP => 19
  | KEYCODE_DPAD_DOWN => 20
  | KEYCODE_DPAD_LEFT => 21
  | KEYCODE_DPAD_RIGHT => 22
  | KEYCODE_ENTER => 66
  | KEYCODE_MENU => 82
  | KEYCODE_SEARCH => 84
  | KEYCODE_MEDIA_PLAY_PAUSE => 85
  | KEYCODE_MEDIA_STOP => 86
  | KEYCODE_MEDIA_NEXT => 87
  | KEYCODE_MEDIA_PREVIOUS => 88
  | KEYCODE_MEDIA_REWIND => 89
  | KEYCODE_MEDIA_FAST_FORWARD => 90
  | KEYCODE_PAGE_UP => 92
  | KEYCODE_PAGE_DOWN => 93
  | KEYCODE_MOVE_HOME => 122
  | KEYCODE_MOVE_END => 123
  | KEYCODE_MEDIA_PLAY => 126
  | KEYCODE_MEDIA_PAUSE => 127
  | KEYCODE_MEDIA_RECORD => 130
  | KEYCODE_VOLUME_MUTE => 164
  | KEYCODE_INFO => 165
  | KEYCODE_CHANNEL_UP => 166
  | KEYCODE_CHANNEL_DOWN => 167
  | KEYCODE_GUIDE => 172
  | KEYCODE_CAPTIONS => 175
  | KEYCODE_PROG_RED => 183
  | KEYCODE_PROG_GREEN => 184
  | KEYCODE_PROG_YELLOW => 185
  | KEYCODE_PROG_BLUE => 186
  | KEYCODE_WAKEUP => 224
  | KEYCODE_MEDIA_SKIP_FORWARD => 272
  | KEYCODE_MEDIA_SKIP_BACKWARD => 273
  end.

Inductive DabKey : Type :=
| KEY_POWER
| KEY_HOME
| KEY_VOLUME_UP
| KEY_VOLUME_DOWN
| KEY_MUTE
| KEY_CHANNEL_UP
| KEY_CHANNEL_DOWN
| KEY_MENU
| KEY_EXIT
| KEY_INFO
| KEY_GUIDE
| KEY_CAPTIONS
| KEY_UP
| KEY_PAGE_UP
| KEY_PAGE_DOWN
| KEY_RIGHT
| KEY_DOWN
| KEY_LEFT
| KEY_ENTER
| KEY_BACK
| KEY_PLAY
| KEY_PLAY_PAUSE
| KEY_PAUSE
| KEY_RECORD
| KEY_STOP
| KEY_REWIND
| KEY_FAST_FORWARD
| KEY_SKIP_REWIND
| KEY_SKIP_FAST_FORWARD
| KEY_0
| KEY_1
| KEY_2
| KEY_3
| KEY_4
| KEY_5
| KEY_6
| KEY_7
| KEY_8
| KEY_9
| KEY_RED
| KEY_GREEN
| KEY_YELLOW
| KEY_BLUE
| KEY_CUSTOM_HOME
| KEY_CUSTOM_STAR
| KEY_CUSTOM_POUND
| KEY_CUSTOM_SEARCH
| KEY_CUSTOM_MOVE_HOME
| KEY_CUSTOM_MOVE_END
| KEY_CUSTOM_MEDIA_NEXT
| KEY_CUSTOM_MEDIA_PREVIOUS
| KEY_CUSTOM_WAKEUP.

(** The string of each member of the enum. *)
Definition name (k : DabKey) : string :=
  match k with
  | KEY_POWER => "KEY_POWER"
  | KEY_HOME => "KEY_HOME"
  | KEY_VOLUME_UP => "KEY_VOLUME_UP"
  | KEY_VOLUME_DOWN => "KEY_VOLUME_DOWN"
  | KEY_MUTE => "KEY_MUTE"
  | KEY_CHANNEL_UP => "KEY_CHANNEL_UP"
  | KEY_CHANNEL_DOWN => "KEY_CHANNEL_DOWN"
  | KEY_MENU => "KEY_MENU"
  | KEY_EXIT => "KEY_EXIT"
  | KEY_INFO => "KEY_INFO"
  | KEY_GUIDE => "KEY_GUIDE"
  | KEY_CAPTIONS => "KEY_CAPTIONS"
  | KEY_UP => "KEY_UP"
  | KEY_PAGE_UP => "KEY_PAGE_UP"
  | KEY_PAGE_DOWN => "KEY_PAGE_DOWN"
  | KEY_RIGHT => "KEY_RIGHT"
  | KEY_DOWN => "KEY_DOWN"
  | KEY_LEFT => "KEY_LEFT"
  | KEY_ENTER => "KEY_ENTER"
  | KEY_BACK => "KEY_BACK"
  | KEY_PLAY => "KEY_PLAY"
  | KEY_PLAY_PAUSE => "KEY_PLAY_PAUSE"
  | KEY_PAUSE => "KEY_PAUSE"
  | KEY_RECORD => "KEY_RECORD"
  | KEY_STOP => "KEY_STOP"
  | KEY_REWIND => "KEY_REWIND"
  | KEY_FAST_FORWARD => "KEY_FAST_FORWARD"
  | KEY_SKIP_REWIND => "KEY_SKIP_REWIND"
  | KEY_SKIP_FAST_FORWARD => "KEY_SKIP_FAST_FORWARD"
  | KEY_0 => "KEY_0"
  | KEY_1 => "KEY_1"
  | KEY_2 => "KEY_2"
  | KEY_3 => "KEY_3"
  | KEY_4 => "KEY_4"
  | KEY_5 => "KEY_5"
  | KEY_6 => "KEY_6"
  | KEY_7 => "KEY_7"
  | KEY_8 => "KEY_8"
  | KEY_9 => "KEY_9"
  | KEY_RED => "KEY_RED"
  | KEY_GREEN => "KEY_GREEN"
  | KEY_YELLOW => "KEY_YELLOW"
  | KEY_BLUE => "KEY_BLUE"
  | KEY_CUSTOM_HOME => "KEY_CUSTOM_HOME"
  | KEY_CUSTOM_STAR => "KEY_CUSTOM_STAR"
  | KEY_CUSTOM_POUND => "KEY_CUSTOM_POUND"
  | KEY_CUSTOM_SEARCH => "KEY_CUSTOM_SEARCH"
  | KEY_CUSTOM_MOVE_HOME => "KEY_CUSTOM_MOVE_HOME"
  | KEY_CUSTOM_MOVE_END => "KEY_CUSTOM_MOVE_END"
  | KEY_CUSTOM_MEDIA_NEXT => "KEY_CUSTOM_MEDIA_NEXT"
  | KEY_CUSTOM_MEDIA_PREVIOUS => "KEY_CUSTOM_MEDIA_PREVIOUS"
  | KEY_CUSTOM_WAKEUP => "KEY_CUSTOM_WAKEUP"
  end.

Definition dabKeysToAndroidKeyCodes (k : DabKey) : AndroidKeyCode :=
  match k with
  | KEY_POWER => KEYCODE_POWER
  | KEY_HOME => KEYCODE_HOME
  | KEY_VOLUME_UP => KEYCODE_VOLUME_UP
  | KEY_VOLUME_DOWN => KEYCODE_VOLUME_DOWN
  | KEY_MUTE => KEYCODE_VOLUME_MUTE
  | KEY_CHANNEL_UP => KEYCODE_CHANNEL_UP
  | KEY_CHANNEL_DOWN => KEYCODE_CHANNEL_DOWN
  | KEY_MENU => KEYCODE_MENU
  | KEY_EXIT => KEYCODE_HOME
  | KEY_INFO => KEYCODE_INFO
  | KEY_GUIDE => KEYCODE_GUIDE
  | KEY_CAPTIONS => KEYCODE_CAPTIONS
  | KEY_UP => KEYCODE_DPAD_UP
  | KEY_PAGE_UP => KEYCODE_PAGE_UP
  | KEY_PAGE_DOWN => KEYCODE_PAGE_DOWN
  | KEY_RIGHT => KEYCODE_DPAD_RIGHT
  | KEY_DOWN => KEYCODE_DPAD_DOWN
  | KEY_LEFT => KEYCODE_DPAD_LEFT
  | KEY_ENTER => KEYCODE_ENTER
  | KEY_BACK => KEYCODE_BACK
  | KEY_PLAY => KEYCODE_MEDIA_PLAY
  | KEY_PLAY_PAUSE => KEYCODE_MEDIA_PLAY_PAUSE
  | KEY_PAUSE => KEYCODE_MEDIA_PAUSE
  | KEY_RECORD => KEYCODE_MEDIA_RECORD
  | KEY_STOP => KEYCODE_MEDIA_STOP
  | KEY_REWIND => KEYCODE_MEDIA_REWIND
  | KEY_FAST_FORWARD => KEYCODE_MEDIA_FAST_FORWARD
  | KEY_SKIP_REWIND => KEYCODE_MEDIA_SKIP_BACKWARD
  | KEY_SKIP_FAST_FORWARD => KEYCODE_MEDIA_SKIP_FORWARD
  | KEY_0 => KEYCODE_0
  | KEY_1 => KEYCODE_1
  | KEY_2 => KEYCODE_2
  | KEY_3 => KEYCODE_3
  | KEY_4 => KEYCODE_4
  | KEY_5 => KEYCODE_5
  | KEY_6 => KEYCODE_6
  | KEY_7 => KEYCODE_7
  | KEY_8 => KEYCODE_8
  | KEY_9 => KEYCODE_9
  | KEY_RED => KEYCODE_PROG_RED
  | KEY_GREEN => KEYCODE_PROG_GREEN
  | KEY_YELLOW => KEYCODE_PROG_YELLOW
  | KEY_BLUE => KEYCODE_PROG_BLUE
  | KEY_CUSTOM_HOME => KEYCODE_HOME
  | KEY_CUSTOM_STAR => KEYCODE_STAR
  | KEY_CUSTOM_POUND => KEYCODE_POUND
  | KEY_CUSTOM_SEARCH => KEYCODE_SEARCH
  | KEY_CUSTOM_MOVE_HOME => KEYCODE_MOVE_HOME
  | KEY_CUSTOM_MOVE_END => KEYCODE_MOVE_END
  | KEY_CUSTOM_MEDIA_NEXT => KEYCODE_MEDIA_NEXT
  | KEY_CUSTOM_MEDIA_PREVIOUS => KEYCODE_MEDIA_PREVIOUS
  | KEY_CUSTOM_WAKEUP => KEYCODE_WAKEUP
  end.

End Keymap.

(** ** A small runtime and device for closed examples

    ASCII lower-casing, decimal numerals, the JSON literals without
    nesting, and [+] / [#] wildcards over [/]-separated topics. *)

Module Example.

Definition lower_ascii (c : ascii) : ascii :=
  let n := nat_of_ascii c in
  if (65 <=? n)%nat && (n <=? 90)%nat then ascii_of_nat (n + 32) else c.

Fixpoint lower (s : string) : string :=
  match s with
  | EmptyString => EmptyString
  | String c rest => String (lower_ascii c) (lower rest)
  end.

Fixpoint digits (s : string) (acc : Z) : option Z :=
  match s with
  | EmptyString => Some acc
  | String c rest =>
      let n := nat_of_ascii c in
      if (48 <=? n)%nat && (n <=? 57)%nat
      then digits rest (10 * acc + Z.of_nat (n - 48))%Z
      else None
  end.

Definition numeral (s : string) : option Q :=
  match s with
  | EmptyString => None
  | _ => inject_Z <$> digits s 0
  end.

Definition parse (s : string) : option json :=
  if String.eqb s "null" then Some JNull
  else if String.eqb s "true" then Some (JBool true)
  else if String.eqb s "false" then Some (JBool false)
  else if String.eqb s "{}" then Some (JObj [])
  else if String.eqb s "[]" then Some (JArr [])
  else JNum <$> numeral s.

Definition to_string (v : json) : string :=
  match v with
  | JNull => "null"
  | JBool true => "true"
  | JBool false => "false"
  | JNum q => pretty (Qfloor q)
  | JStr s => s
  | JArr _ => ""
  | JObj _ => "[object Object]"
  end.

Fixpoint split_topic (s : string) (cur : string) : list string :=
  match s with
  | EmptyString => [cur]
  | String c rest =>
      if Ascii.eqb c "/"%char then cur :: split_topic rest ""
      else split_topic rest (cur +:+ String c "")
  end.

Fixpoint segments_match (pattern topic : list string) : bool :=
  match pattern, topic with
  | [], [] => true
  | p :: ps, t :: ts =>
      if String.eqb p "**" then true
      else (String.eqb p "*" || String.eqb p t) && segments_match ps ts
  | _, _ => false
  end.

Fixpoint wildcards (s : string) : string :=
  match s with
  | EmptyString => EmptyString
  | String c rest =>
      if Ascii.eqb c "+"%char then String "*"%char (wildcards rest)
      else if Ascii.eqb c "#"%char then "**" +:+ wildcards rest
      else String c (wildcards rest)
  end.

(** Exact segments before `*` before `**`, the first segment weighing
    most (for events of at most six segments). *)
Fixpoint place_from (weight : nat) (pattern : list string) : nat :=
  match pattern with
  | [] => 0
  | p :: rest =>
      (if String.eqb p "**" then 2 else if String.eqb p "*" then 1 else 0) * 3 ^ weight
      + place_from (pred weight) rest
  end.

Definition place (pattern : list string) : nat := place_from 5 pattern.

#[export] Instance runtime : Runtime := {|
  JSON_parse := parse;
  StringToNumber := numeral;
  ToString := to_string;
  toLowerCase := lower;
  js_add := fun a b => JStr (to_string a +:+ to_string b);
  convertPattern := wildcards;
  event_matches := fun event topic =>
    segments_match (split_topic event "") (split_topic topic "");
  visit_rank := fun event topic => place (split_topic event "")
|}.

(** A device that records the adb commands it was sent and reports every
    package as running. *)
#[export] Instance recorder : DabDevice.Adb := {|
  DabDevice.adb := list string;
  DabDevice.app_status := bool;
  DabDevice.Stopped := false;
  DabDevice.Running := true;
  DabDevice.app_status_eqb := Bool.eqb;
  DabDevice.adb_start := fun i d => (Normal tt, d ++ ["start"]);
  DabDevice.adb_status := fun p d => (Normal (Some (Some true)), d ++ ["status " +:+ p]);
  DabDevice.adb_stop := fun p d => (Normal tt, d ++ ["stop " +:+ p]);
  DabDevice.adb_backgroundApp := fun p d => (Normal tt, d ++ ["background " +:+ p]);
  DabDevice.adbAppStatusToDabAppState :=
    fun s => match s with Some true => JStr "FOREGROUND" | _ => JStr "STOPPED" end;
  DabDevice.ApplicationState_Stopped := JStr "STOPPED";
  DabDevice.ApplicationState_Background := JStr "BACKGROUND"
|}.

Definition appMap : gmap string DabDevice.app_config :=
  {[ "youtube" :=
       DabDevice.Impl
         {| DabDevice.package := Some "com.google.android.youtube.tv";
            DabDevice.intent := Some ["-a"; "android.intent.action.VIEW"; "-d"; "https://www.youtube.com/tv?"];
            DabDevice.optionsPrefix := None;
            DabDevice.friendlyName := Some "YouTube" |} ]}.

(** A producer that reports how many samples were taken before. *)
Definition counter : DabDeviceBase.producer :=
  fun k => Normal (JNum (inject_Z (Z.of_nat k))).

End Example.

(** ** A handset for closed examples

    [JSON.stringify] on the literals that [Example.parse] reads, the adb
    commands of the second half of the binding, and a configuration with
    a list of candidate packages. *)

Module Handset.
Import DabDevice.


Definition getPackages (d : list string) : completion (list string) * list string :=
  (Normal ["com.android.tv.settings"; "com.google.android.youtube.tv"], d ++ ["packages"]).



Definition youtube (p : string) : app_impl :=
  {| package := Some p;
     intent := Some ["-a"; "android.intent.action.VIEW"; "-d"; "https://www.youtube.com/tv?"];
     optionsPrefix := None;
     friendlyName := Some "YouTube" |}.

Definition settings : app_impl :=
  {| package := Some "com.android.tv.settings";
     intent := Some ["-n"; "com.android.tv.settings/.MainSettings"];
     optionsPrefix := None;
     friendlyName := None |}.

Definition entries : list (string * app_config) :=
  [("youtube", Candidates [youtube "com.amazon.firetv.youtube";
                           youtube "com.google.android.youtube.tv"]);
   ("settings", Impl settings);
   ("netflix", Impl {| package := Some "com.netflix.ninja"; intent := None;
                       optionsPrefix := None; friendlyName := Some "Netflix" |})].

End Handset.

(** * Properties *)

Lemma field_set_field_eq k v (o : object) : field k (set_field k v o) = Some v.
Proof.
  induction o as [|[k' v'] rest IH]; cbn.
  - now rewrite String.eqb_refl.
  - destruct (String.eqb k k') eqn:E; cbn; now rewrite E.
Qed.

Lemma field_set_field_ne k k' v (o : object) :
  k ≠ k' -> field k (set_field k' v o) = field k o.
Proof.
  intros Hne. induction o as [|[k0 v0] rest IH]; cbn.
  - now rewrite (proj2 (String.eqb_neq k k')).
  - destruct (String.eqb k' k0) eqn:E; cbn; [|now rewrite IH].
    apply String.eqb_eq in E. subst k0.
    now rewrite (proj2 (String.eqb_neq k k')).
Qed.

Lemma set_field_twice k v w (o : object) :
  set_field k v (set_field k w o) = set_field k v o.
Proof.
  induction o as [|[k' v'] rest IH]; cbn.
  - now rewrite String.eqb_refl.
  - destruct (String.eqb k k') eqn:E; cbn; rewrite E; [reflexivity | now rewrite IH].
Qed.

Lemma floor_hundredth (z : Z) : Math_floor (inject_Z z / 100) = (z / 100)%Z.
Proof. unfold Math_floor. symmetry. exact (Zdiv_Qdiv z 100). Qed.

Lemma hundreds_two (z : Z) : ((z / 100 =? 2) = true <-> 200 <= z <= 299)%Z.
Proof.
  rewrite Z.eqb_eq.
  pose proof (Z.div_mod z 100 ltac:(lia)) as Hdm.
  pose proof (Z.mod_pos_bound z 100 ltac:(lia)) as Hb.
  split; intros Hz; lia.
Qed.

(** C8. Every envelope [dabResponse] returns for an integer status carries
    that status, and has an [error] field exactly when the status lies
    outside 200..299; the builder throws instead of returning one only for
    a status outside that range given without an error text. *)
Theorem dabResponse_error_iff_not_2xx (status : Z) (error : option string) :
  match dabResponse (inject_Z status) error with
  | Normal r =>
      field "status" r = Some (JNum (inject_Z status)) /\
      (is_Some (field "error" r) <-> ~ (200 <= status <= 299)%Z)
  | Throw _ =>
      ~ (200 <= status <= 299)%Z /\ (error = None \/ error = Some "")
  end.
Proof.
  unfold dabResponse. rewrite floor_hundredth.
  pose proof (hundreds_two status) as H2.
  destruct (status / 100 =? 2)%Z eqn:E; cbn [negb].
  - cbn. split; [reflexivity|]. split.
    + intros [x Hx]. discriminate.
    + intros Hn. exfalso. apply Hn, H2. reflexivity.
  - assert (Hout : ~ (200 <= status <= 299)%Z).
    { intros Hin. apply H2 in Hin. discriminate. }
    destruct error as [[|c s]|]; cbn.
    + split; [exact Hout | right; reflexivity].
    + split; [reflexivity|]. split; [intros _; exact Hout | intros _; eexists; reflexivity].
    + split; [exact Hout | left; reflexivity].
Qed.

(** ** The correlation layer *)

Section ClientFacts.
Import Client.
Context `{Runtime}.

Lemma lookup_update_request_eq n f st :
  requests (update_request n f st) !! n = f <$> requests st !! n.
Proof. apply list_lookup_alter_eq. Qed.

Lemma lookup_update_request_ne n m f st :
  n ≠ m -> requests (update_request n f st) !! m = requests st !! m.
Proof. intros Hne. now apply list_lookup_alter_ne. Qed.

Lemma received_update_request n f st :
  received (update_request n f st) = received st.
Proof. reflexivity. Qed.

Lemma same_outcome_refl a : same_outcome a a.
Proof. repeat split. Qed.

Lemma then_end_outcome n m st :
  same_outcome (requests (then_end n st) !! m) (requests st !! m).
Proof.
  unfold then_end. destruct (requests st !! n) as [r|] eqn:Hr; [|apply same_outcome_refl].
  destruct (rq_subscription r); try apply same_outcome_refl.
  destruct (decide (n = m)) as [->|Hne].
  - rewrite lookup_update_request_eq, Hr. repeat split.
  - rewrite lookup_update_request_ne by done. apply same_outcome_refl.
Qed.

Lemma then_end_other n m st :
  n ≠ m -> requests (then_end n st) !! m = requests st !! m.
Proof.
  intros Hne. unfold then_end. destruct (requests st !! n) as [r|]; [|done].
  destruct (rq_subscription r); try done. now apply lookup_update_request_ne.
Qed.

Lemma then_end_received n st : received (then_end n st) = received st.
Proof.
  unfold then_end. destruct (requests st !! n) as [r|]; [|done].
  now destruct (rq_subscription r).
Qed.

Lemma end_subscription_requests topic l st :
  requests (end_subscription topic l st) = requests st.
Proof. unfold end_subscription. now case_match. Qed.

Lemma end_subscription_received topic l st :
  received (end_subscription topic l st) = received st.
Proof. unfold end_subscription. now case_match. Qed.

Lemma run_end_requests st n : requests (run_end st n) = requests st.
Proof. unfold run_end. case_match; [apply end_subscription_requests | done]. Qed.

Lemma run_end_received st n : received (run_end st n) = received st.
Proof. unfold run_end. case_match; [apply end_subscription_received | done]. Qed.

Lemma fold_run_end_requests ms st :
  requests (fold_left run_end ms st) = requests st.
Proof.
  revert st. induction ms as [|m ms IH]; intros st; cbn; [done|].
  now rewrite IH, run_end_requests.
Qed.

Lemma fold_run_end_received ms st :
  received (fold_left run_end ms st) = received st.
Proof.
  revert st. induction ms as [|m ms IH]; intros st; cbn; [done|].
  now rewrite IH, run_end_received.
Qed.

Lemma drain_requests st : requests (drain st) = requests st.
Proof. unfold drain. now rewrite fold_run_end_requests. Qed.

Lemma drain_received st : received (drain st) = received st.
Proof. unfold drain. now rewrite fold_run_end_received. Qed.

(** A settled promise stays as it is. *)
Lemma settle_settled p r : rq_promise r ≠ Pending -> settle p r = r.
Proof. unfold settle. now destruct (rq_promise r). Qed.

Lemma settle_pending p r : rq_promise r = Pending -> rq_promise (settle p r) = p.
Proof. unfold settle. now intros ->. Qed.

Lemma prop_not_null v k : v ≠ JNull -> exists s, prop v k = Normal s.
Proof. destruct v; cbn; eauto. now intros []. Qed.

(** What the listener of request [n] does to another request: nothing. *)
Lemma on_response_other n m v st :
  n ≠ m -> requests (fst (on_response n v st)) !! m = requests st !! m.
Proof.
  intros Hne. unfold on_response, clearTimeout, reject, resolve.
  destruct (prop v "status") as [s|e]; cbn [fst].
  - rewrite then_end_other by done.
    destruct (gt s 299); now rewrite !lookup_update_request_ne by done.
  - now rewrite lookup_update_request_ne by done.
Qed.

Lemma on_response_received n v st : received (fst (on_response n v st)) = received st.
Proof.
  unfold on_response. destruct (prop v "status") as [s|e]; cbn [fst]; [|done].
  rewrite then_end_received. now destruct (gt s 299).
Qed.

Lemma on_response_no_throw n v st : v ≠ JNull -> snd (on_response n v st) = None.
Proof.
  intros Hv. unfold on_response. destruct (prop_not_null v "status" Hv) as [s ->]. done.
Qed.

End ClientFacts.

Section Correlation.
Import Client.
Context `{Runtime}.

Lemma on_response_decides n r v s st :
  requests st !! n = Some r -> rq_promise r = Pending -> prop v "status" = Normal s ->
  requests (fst (on_response n v st)) !! n =
    Some (let r' := set_promise (if gt s 299 then Rejected (ThrownValue v) else Fulfilled v)
                      (set_timer false r) in
          match rq_subscription r with
          | SubPending => set_waiting (S (rq_waiting r)) r'
          | _ => r'
          end).
Proof.
  intros Hr Hp Hs. unfold on_response. rewrite Hs. cbn [fst].
  set (st1 := if gt s 299 then _ else _).
  assert (H1 : requests st1 !! n =
               Some (set_promise (if gt s 299 then Rejected (ThrownValue v) else Fulfilled v)
                       (set_timer false r))).
  { subst st1. unfold reject, resolve, clearTimeout.
    destruct (gt s 299); rewrite !lookup_update_request_eq, Hr; cbn;
      unfold settle; cbn; now rewrite Hp. }
  unfold then_end. rewrite H1. cbn [rq_subscription set_promise set_timer].
  destruct (rq_subscription r) eqn:Hsub.
  - rewrite lookup_update_request_eq, H1. reflexivity.
  - exact H1.
  - exact H1.
Qed.

(** C9. The listener of [request] settles a pending promise by the one
    test [msg.status > 299]: an envelope without a status, or with a
    numeric status of at most 299 (so also one below 200), fulfils the
    promise with the envelope; a numeric status above 299 rejects it. *)
Theorem response_decided_by_status_gt_299 n r (o : object) st :
  requests st !! n = Some r -> rq_promise r = Pending ->
  let outcome := rq_promise <$> requests (fst (on_response n (JObj o) st)) !! n in
  outcome = Some (if gt (field "status" o) 299
                  then Rejected (ThrownValue (JObj o)) else Fulfilled (JObj o))
  /\ (field "status" o = None -> outcome = Some (Fulfilled (JObj o)))
  /\ (forall q, field "status" o = Some (JNum q) -> (q < 200)%Q ->
        outcome = Some (Fulfilled (JObj o)))
  /\ (forall q, field "status" o = Some (JNum q) -> (q <= 299)%Q ->
        outcome = Some (Fulfilled (JObj o)))
  /\ (forall q, field "status" o = Some (JNum q) -> (299 < q)%Q ->
        outcome = Some (Rejected (ThrownValue (JObj o)))).
Proof.
  intros Hr Hp outcome.
  assert (Hout : outcome = Some (if gt (field "status" o) 299
                  then Rejected (ThrownValue (JObj o)) else Fulfilled (JObj o))).
  { subst outcome. rewrite (on_response_decides n r (JObj o) (field "status" o) st Hr Hp eq_refl).
    cbn. destruct (rq_subscription r); reflexivity. }
  assert (Hle : forall q, field "status" o = Some (JNum q) -> (q <= 299)%Q ->
                          outcome = Some (Fulfilled (JObj o))).
  { intros q Hq Hle. rewrite Hout, Hq. unfold gt, ToNumber.
    apply Qle_bool_iff in Hle. now rewrite Hle. }
  split; [exact Hout|]. split; [|split; [|split]].
  - intros Hnone. rewrite Hout, Hnone. reflexivity.
  - intros q Hq Hlt. apply (Hle q Hq).
    apply Qle_trans with 200%Q; [now apply Qlt_le_weak | unfold Qle; cbn; lia].
  - exact Hle.
  - intros q Hq Hgt. rewrite Hout, Hq. unfold gt, ToNumber.
    destruct (Qle_bool q 299) eqn:E; [|reflexivity].
    apply Qle_bool_iff in E. exfalso. exact (Qlt_not_le _ _ Hgt E).
Qed.

Lemma emit_to_app l1 l2 v pkt st :
  emit_to (l1 ++ l2) v pkt st =
    match emit_to l1 v pkt st with
    | (st1, Some e) => (st1, Some e)
    | (st1, None) => emit_to l2 v pkt st1
    end.
Proof.
  revert st. induction l1 as [|l l1 IH]; intros st; cbn [app emit_to]; [done|].
  destruct (invoke l v pkt st) as [st1 [e|]]; [done | apply IH].
Qed.

Lemma invoke_other l n v pkt st :
  l ≠ RequestListener n -> requests (fst (invoke l v pkt st)) !! n = requests st !! n.
Proof.
  intros Hl. destruct l as [m|c]; cbn [invoke]; [|done].
  apply on_response_other. congruence.
Qed.

Lemma invoke_no_throw l v pkt st : v ≠ JNull -> snd (invoke l v pkt st) = None.
Proof. intros Hv. destruct l; cbn [invoke]; [now apply on_response_no_throw | done]. Qed.

Lemma emit_to_others ls n v pkt st :
  v ≠ JNull -> Forall (fun l => l ≠ RequestListener n) ls ->
  snd (emit_to ls v pkt st) = None /\
  requests (fst (emit_to ls v pkt st)) !! n = requests st !! n.
Proof.
  intros Hv Hls. revert st. induction Hls as [|l ls Hl Hls IH]; intros st; cbn [emit_to]; [done|].
  pose proof (invoke_no_throw l v pkt st Hv) as Hno.
  pose proof (invoke_other l n v pkt st Hl) as Hsame.
  destruct (invoke l v pkt st) as [st1 [e|]]; cbn [fst snd] in *; [discriminate|].
  destruct (IH st1) as [IH1 IH2]. now rewrite IH1, IH2.
Qed.

Lemma visit_after_split topic x l :
  exists a b, l = a ++ b /\ visit_after topic x l = a ++ x :: b.
Proof.
  induction l as [|y l (a & b & Hl & Hv)]; cbn [visit_after].
  - now exists [], [].
  - destruct (visit_rank (fst x) topic <? visit_rank (fst y) topic)%nat.
    + now exists [], (y :: l).
    + exists (y :: a), b. split; [now rewrite Hl | now rewrite Hv].
Qed.

Lemma visit_after_perm topic x l : visit_after topic x l ≡ₚ x :: l.
Proof.
  destruct (visit_after_split topic x l) as (a & b & -> & ->).
  symmetry. apply Permutation_middle.
Qed.

Lemma fold_visit_after_perm topic xs acc :
  fold_left (fun acc x => visit_after topic x acc) xs acc ≡ₚ acc ++ xs.
Proof.
  revert acc. induction xs as [|x xs IH]; intros acc; cbn [fold_left].
  - now rewrite app_nil_r.
  - rewrite IH, visit_after_perm. cbn [app]. apply Permutation_middle.
Qed.

(** [emit] calls the listeners that [listeners] reports, each once. *)
Lemma heard_listeners topic st : heard topic st ≡ₚ listeners topic st.
Proof.
  unfold heard, listeners, visited. now rewrite fold_visit_after_perm.
Qed.

(** A listener registered last that hears the topic takes its place among
    those heard before, which keep their order. *)
Lemma heard_snoc topic event l st :
  event_matches event topic = true ->
  exists a b,
    heard topic st = a ++ b
    /\ heard topic (with_emitter (emitter st ++ [(event, l)]) st) = a ++ l :: b.
Proof.
  intros Hm. unfold heard, visited. cbn [emitter with_emitter].
  rewrite filter_app, fold_left_app, filter_cons, filter_nil. cbn [fst].
  rewrite decide_True by exact Hm. cbn [fold_left].
  destruct (visit_after_split topic (event, l)
              (fold_left (fun acc x => visit_after topic x acc)
                 (filter (fun ec => event_matches ec.1 topic = true) (emitter st)) []))
    as (a & b & Hl & Hv).
  exists (map snd a), (map snd b). rewrite Hv, Hl, !map_app. split; reflexivity.
Qed.

Lemma well_formed_listeners topic st :
  well_formed st ->
  Forall (fun l => l ≠ RequestListener (length (requests st))) (heard topic st).
Proof.
  unfold well_formed. intros Hwf. rewrite heard_listeners. unfold listeners.
  apply Forall_fmap. apply Forall_forall. intros [e l] Hin.
  apply list_elem_of_filter in Hin as [_ Hin].
  rewrite Forall_forall in Hwf. specialize (Hwf _ Hin). cbn in *.
  destruct l as [m|c]; [|done]. intros [= ->]. lia.
Qed.

Lemma request_creates topic payload options requestId st :
  requests (request topic payload options requestId st) !! length (requests st)
  = Some (fresh_request topic requestId options).
Proof. unfold request, publish, subscribe. cbn. now apply list_lookup_middle. Qed.

Lemma request_then_response topic payload options requestId msg pkt st :
  let n := length (requests st) in
  let responseTopic := "_response/" +:+ (topic +:+ "/" +:+ requestId) in
  let after := handleMessage responseTopic msg pkt
                 (request topic payload options requestId st) in
  well_formed st ->
  event_matches (convertPattern responseTopic) responseTopic = true ->
  response_of msg pkt ≠ JNull ->
  snd after = None /\
  exists s, prop (response_of msg pkt) "status" = Normal s /\
    requests (fst after) !! n =
      Some (set_waiting 1
              (set_promise (if gt s 299 then Rejected (ThrownValue (response_of msg pkt))
                            else Fulfilled (response_of msg pkt))
                 (set_timer false (fresh_request topic requestId options)))).
Proof.
  intros n responseTopic after Hwf Hmatch Hv.
  set (st' := request topic payload options requestId st) in *.
  pose proof (request_creates topic payload options requestId st) as Hreq.
  fold st' n in Hreq.
  destruct (heard_snoc responseTopic (convertPattern responseTopic) (RequestListener n)
              (with_requests (requests st ++ [fresh_request topic requestId options]) st)
              Hmatch) as (a & b & Hls & Hls').
  assert (Hheard : heard responseTopic st' = a ++ RequestListener n :: b) by exact Hls'.
  assert (Hothers : Forall (fun l => l ≠ RequestListener n) (a ++ b)).
  { rewrite <- Hls. exact (well_formed_listeners responseTopic st Hwf). }
  apply Forall_app in Hothers as [Ha Hb].
  destruct (prop_not_null _ "status" Hv) as [s Hs].
  subst after. unfold handleMessage, emit. rewrite Hheard, emit_to_app.
  destruct (emit_to_others _ n (response_of msg pkt) pkt st' Hv Ha) as [Hno Hsame].
  destruct (emit_to a (response_of msg pkt) pkt st')
    as [st1 [e|]] eqn:E1; cbn [fst snd] in *; [discriminate|].
  rewrite Hreq in Hsame.
  cbn [emit_to invoke].
  pose proof (on_response_decides n _ _ s st1 Hsame eq_refl Hs) as Hdec.
  pose proof (on_response_no_throw n _ st1 Hv) as Hno2.
  destruct (on_response n (response_of msg pkt) st1) as [st2 [e|]]; cbn [fst snd] in *;
    [discriminate|].
  destruct (emit_to_others _ n (response_of msg pkt) pkt st2 Hv Hb) as [Hno3 Hsame3].
  destruct (emit_to b (response_of msg pkt) pkt st2) as [st3 [e|]];
    cbn [fst snd] in *; [discriminate|].
  split; [reflexivity|]. exists s. split; [exact Hs|].
  rewrite drain_requests, Hsame3, Hdec. reflexivity.
Qed.



(** X2. A response cancels the timer of its request: the timer is off,
    and the time-out elapsing afterwards changes nothing at all. *)
Theorem response_cancels_timer topic payload options requestId msg pkt st :
  let n := length (requests st) in
  let responseTopic := "_response/" +:+ (topic +:+ "/" +:+ requestId) in
  let after := fst (handleMessage responseTopic msg pkt
                      (request topic payload options requestId st)) in
  well_formed st ->
  event_matches (convertPattern responseTopic) responseTopic = true ->
  response_of msg pkt ≠ JNull ->
  rq_timer <$> requests after !! n = Some false /\ timer_fired n after = after.
Proof.
  intros n responseTopic after Hwf Hmatch Hv.
  destruct (request_then_response topic payload options requestId msg pkt st Hwf Hmatch Hv)
    as [_ (s & _ & Hafter)].
  fold n responseTopic after in Hafter.
  split; [now rewrite Hafter|].
  unfold timer_fired. now rewrite Hafter.
Qed.

End Correlation.

(** ** Exactly one terminal transition *)

Section ExactlyOnce.
Import Client.
Context `{Runtime}.

Lemma outcome_same_requests n st st' :
  requests st' = requests st -> outcome n st' = outcome n st.
Proof. unfold outcome. now intros ->. Qed.

Lemma outcome_update_request_ne n m g st :
  m ≠ n -> outcome n (update_request m g st) = outcome n st.
Proof. intros Hne. unfold outcome. now rewrite lookup_update_request_ne. Qed.

Lemma outcome_update_request_keep n m g st :
  (forall r, rq_promise (g r) = rq_promise r) ->
  outcome n (update_request m g st) = outcome n st.
Proof.
  intros Hg. destruct (decide (m = n)) as [->|Hne];
    [|now apply outcome_update_request_ne].
  unfold outcome. rewrite lookup_update_request_eq.
  destruct (requests st !! n) as [r|]; cbn; [now rewrite Hg | done].
Qed.

Lemma outcome_settle n m p q st :
  outcome n st = Some q -> q ≠ Pending ->
  outcome n (update_request m (settle p) st) = Some q.
Proof.
  intros Hq Hset. destruct (decide (m = n)) as [->|Hne];
    [|now rewrite outcome_update_request_ne].
  unfold outcome in *. rewrite lookup_update_request_eq.
  destruct (requests st !! n) as [r|]; cbn in *; [|discriminate].
  injection Hq as Hq. rewrite settle_settled; [now rewrite Hq | now rewrite Hq].
Qed.

Lemma outcome_then_end n m st : outcome n (then_end m st) = outcome n st.
Proof. unfold outcome. apply then_end_outcome. Qed.

Lemma outcome_drain n st : outcome n (drain st) = outcome n st.
Proof. apply outcome_same_requests, drain_requests. Qed.

Lemma outcome_on_response n m v q st :
  outcome n st = Some q -> q ≠ Pending ->
  outcome n (fst (on_response m v st)) = Some q.
Proof.
  intros Hq Hset. unfold on_response.
  assert (Hc : outcome n (clearTimeout m st) = Some q).
  { unfold clearTimeout. now rewrite outcome_update_request_keep. }
  destruct (prop v "status") as [s|e]; cbn [fst]; [|exact Hc].
  rewrite outcome_then_end.
  destruct (gt s 299); unfold reject, resolve; now apply outcome_settle.
Qed.

Lemma outcome_emit_to n ls v pkt q st :
  outcome n st = Some q -> q ≠ Pending ->
  outcome n (fst (emit_to ls v pkt st)) = Some q.
Proof.
  intros Hq Hset. revert st Hq. induction ls as [|l ls IH]; intros st Hq; cbn [emit_to fst];
    [exact Hq|].
  assert (Hl : outcome n (fst (invoke l v pkt st)) = Some q).
  { destruct l as [m|c]; cbn [invoke]; [now apply outcome_on_response | exact Hq]. }
  destruct (invoke l v pkt st) as [st1 [e|]]; cbn [fst] in *; [exact Hl | now apply IH].
Qed.

Lemma outcome_request n topic payload options requestId q st :
  outcome n st = Some q ->
  outcome n (request topic payload options requestId st) = Some q.
Proof.
  unfold outcome, request, publish, subscribe. cbn. intros Hq.
  destruct (requests st !! n) as [r|] eqn:Hr; [|discriminate].
  rewrite lookup_app_l by (now apply lookup_lt_Some in Hr). now rewrite Hr.
Qed.

Lemma outcome_react n e q st :
  outcome n st = Some q -> q ≠ Pending -> outcome n (react st e) = Some q.
Proof.
  intros Hq Hset. destruct e as [topic payload options rid|topic c|topic msg pkt|m|m err|m|m];
    cbn [react].
  - now apply outcome_request.
  - exact Hq.
  - unfold handleMessage, emit.
    pose proof (outcome_emit_to n (heard topic st) (response_of msg pkt) pkt q st Hq Hset)
      as He.
    destruct (emit_to _ _ _ st) as [st1 e]; cbn [fst] in *. now rewrite outcome_drain.
  - unfold timer_fired. destruct (requests st !! m) as [r|]; [|exact Hq].
    destruct (rq_timer r); [|exact Hq].
    rewrite outcome_drain, outcome_then_end. unfold reject. apply outcome_settle; [|exact Hset].
    now rewrite outcome_update_request_keep.
  - unfold publish_failed. rewrite outcome_drain. unfold reject.
    apply outcome_settle; [|exact Hset]. now rewrite outcome_then_end.
  - unfold subscribe_granted. destruct (requests st !! m) as [r|]; [|exact Hq].
    destruct (rq_subscription r); try exact Hq.
    rewrite outcome_drain.
    rewrite (outcome_same_requests n (update_request m _ st)) by reflexivity.
    now rewrite outcome_update_request_keep.
  - unfold subscribe_refused. destruct (requests st !! m) as [r|]; [|exact Hq].
    destruct (rq_subscription r); try exact Hq.
    now rewrite outcome_update_request_keep.
Qed.

(** X1. Once the promise of a request is fulfilled or rejected, nothing that
    happens later changes it: further responses, the timer, a failing
    publish, the grant or refusal of the subscription, other requests. *)
Theorem settled_promise_is_final n q es st :
  outcome n st = Some q -> q ≠ Pending -> outcome n (run es st) = Some q.
Proof.
  intros Hq Hset. revert st Hq. unfold run.
  induction es as [|e es IH]; intros st Hq; cbn [fold_left]; [exact Hq|].
  apply IH. now apply outcome_react.
Qed.

(** The rejection of a publish leaves the timer of its request as it was:
    lines 131-134 have no [clearTimeout]. *)
Lemma publish_failed_keeps_timer n err r st :
  requests st !! n = Some r ->
  rq_timer <$> requests (publish_failed n err st) !! n = Some (rq_timer r).
Proof.
  intros Hr. unfold publish_failed. rewrite drain_requests. unfold reject.
  rewrite lookup_update_request_eq.
  destruct (then_end_outcome n n st) as (_ & Htimer & _).
  rewrite Hr in Htimer. cbn in Htimer.
  destruct (requests (then_end n st) !! n) as [r'|]; cbn in *; [|discriminate].
  injection Htimer as Htimer. f_equal. rewrite <- Htimer.
  unfold settle. now destruct (rq_promise r').
Qed.

(** The requests a client holds, and the listeners that belong to them,
    stay consistent whatever happens. *)
Lemma Forall_of_sublist {A} (P : A -> Prop) (l k : list A) :
  l `sublist_of` k -> Forall P k -> Forall P l.
Proof.
  induction 1 as [|x l k _ IH|x l k _ IH]; intros Hk; [done| |].
  - apply Forall_cons in Hk as [Hx Hk]. constructor; auto.
  - apply Forall_cons in Hk as [_ Hk]. auto.
Qed.

Lemma well_formed_same st st' :
  length (requests st') = length (requests st) ->
  emitter st' `sublist_of` emitter st -> well_formed st -> well_formed st'.
Proof.
  unfold well_formed. intros Hlen Hsub Hwf. rewrite Hlen.
  eapply Forall_of_sublist; eassumption.
Qed.

Lemma removeListener_sublist event l ls : removeListener event l ls `sublist_of` ls.
Proof.
  induction ls as [|[e c] ls IH]; cbn; [done|].
  destruct (String.eqb e event && listener_eqb c l).
  - now apply sublist_cons.
  - now apply sublist_skip.
Qed.

Lemma well_formed_update_request m g st :
  well_formed st -> well_formed (update_request m g st).
Proof.
  apply well_formed_same; [|done]. unfold update_request. cbn. apply length_alter.
Qed.

Lemma well_formed_then_end m st : well_formed st -> well_formed (then_end m st).
Proof.
  intros Hwf. unfold then_end. destruct (requests st !! m) as [r|]; [|done].
  destruct (rq_subscription r); [now apply well_formed_update_request | done | done].
Qed.

Lemma well_formed_end_subscription topic l st :
  well_formed st -> well_formed (end_subscription topic l st).
Proof.
  intros Hwf. unfold end_subscription.
  assert (Hrem : well_formed
            (with_emitter (removeListener (convertPattern topic) l (emitter st)) st)).
  { revert Hwf. apply well_formed_same; [done | apply removeListener_sublist]. }
  now case_match.
Qed.

Lemma well_formed_drain st : well_formed st -> well_formed (drain st).
Proof.
  intros Hwf. unfold drain.
  assert (Hst : well_formed (with_microtasks [] st)) by exact Hwf.
  revert Hst. generalize (with_microtasks [] st). generalize (microtasks st).
  induction l as [|m ms IH]; intros s Hs; cbn [fold_left]; [exact Hs|].
  apply IH. unfold run_end. destruct (requests s !! m); [|exact Hs].
  now apply well_formed_end_subscription.
Qed.

Lemma well_formed_on_response m v st :
  well_formed st -> well_formed (fst (on_response m v st)).
Proof.
  intros Hwf. unfold on_response.
  assert (Hc : well_formed (clearTimeout m st)) by now apply well_formed_update_request.
  destruct (prop v "status") as [s|e]; cbn [fst]; [|exact Hc].
  apply well_formed_then_end.
  destruct (gt s 299); now apply well_formed_update_request.
Qed.

Lemma well_formed_emit_to ls v pkt st :
  well_formed st -> well_formed (fst (emit_to ls v pkt st)).
Proof.
  revert st. induction ls as [|l ls IH]; intros st Hwf; cbn [emit_to fst]; [exact Hwf|].
  assert (Hl : well_formed (fst (invoke l v pkt st))).
  { destruct l as [m|c]; cbn [invoke]; [now apply well_formed_on_response | exact Hwf]. }
  destruct (invoke l v pkt st) as [st1 [e|]]; cbn [fst] in *; [exact Hl | now apply IH].
Qed.

Lemma well_formed_react e st : well_formed st -> well_formed (react st e).
Proof.
  intros Hwf. destruct e as [topic payload options rid|topic c|topic msg pkt|m|m err|m|m];
    cbn [react].
  - unfold request, publish, subscribe, well_formed in *. cbn.
    rewrite length_app. cbn. apply Forall_app. split.
    + eapply Forall_impl; [exact Hwf|]. intros [e [k|c]]; cbn; lia.
    + constructor; [cbn; lia | constructor].
  - unfold subscribe, well_formed in *. cbn. apply Forall_app. split; [exact Hwf|].
    constructor; [exact I | constructor].
  - unfold handleMessage, emit.
    pose proof (well_formed_emit_to (heard topic st) (response_of msg pkt) pkt st Hwf)
      as He.
    destruct (emit_to _ _ _ st) as [st1 e]; cbn [fst] in *. now apply well_formed_drain.
  - unfold timer_fired. destruct (requests st !! m) as [r|]; [|exact Hwf].
    destruct (rq_timer r); [|exact Hwf].
    apply well_formed_drain, well_formed_then_end.
    unfold reject. now do 2 apply well_formed_update_request.
  - unfold publish_failed. apply well_formed_drain. unfold reject.
    now apply well_formed_update_request, well_formed_then_end.
  - unfold subscribe_granted. destruct (requests st !! m) as [r|]; [|exact Hwf].
    destruct (rq_subscription r); try exact Hwf.
    apply well_formed_drain.
    now apply (well_formed_update_request m _ st).
  - unfold subscribe_refused. destruct (requests st !! m) as [r|]; [|exact Hwf].
    destruct (rq_subscription r); try exact Hwf.
    now apply well_formed_update_request.
Qed.

Theorem well_formed_run es : well_formed (run es new_client).
Proof.
  unfold run. assert (H0 : well_formed new_client) by constructor.
  revert H0. generalize new_client.
  induction es as [|e es IH]; intros st Hst; cbn [fold_left]; [exact Hst|].
  apply IH. now apply well_formed_react.
Qed.

End ExactlyOnce.

(** ** The transport wrapper: inbound messages *)

Section Inbound.
Import Client.
Context `{Runtime}.

Lemma emit_to_received ls v pkt st :
  v ≠ JNull ->
  snd (emit_to ls v pkt st) = None /\
  received (fst (emit_to ls v pkt st)) =
    received st ++ ((fun c => (c, v, pkt)) <$> callbacks ls).
Proof.
  intros Hv. revert st. induction ls as [|l ls IH]; intros st; cbn [emit_to].
  - cbn. now rewrite app_nil_r.
  - destruct l as [n|c]; cbn [invoke].
    + pose proof (on_response_no_throw n v st Hv) as Hno.
      pose proof (on_response_received n v st) as Hrec.
      destruct (on_response n v st) as [st1 [e|]]; cbn [fst snd] in *; [discriminate|].
      destruct (IH st1) as [IH1 IH2]. now rewrite IH1, IH2, Hrec.
    + destruct (IH (with_received (received st ++ [(c, v, pkt)]) st)) as [IH1 IH2].
      rewrite IH1, IH2. cbn. now rewrite <- app_assoc.
Qed.

Lemma empty_length (s : string) : (String.length s =? 0)%nat = String.eqb s "".
Proof. now destruct s. Qed.

(** C3. A payload that is not empty and that [JSON.parse] rejects reaches
    every listening callback as
    [{status: 500, error: "failed to parse msg", msg: <the text>, packet}],
    an empty payload reaches them as the empty object [{}]; in both cases
    [handleMessage] throws nothing.  The callbacks are called once each,
    in the order in which the emitter visits the listeners that hear the
    topic. *)
Theorem handleMessage_unparsable_or_empty topic msg pkt st :
  JSON_parse msg = None \/ msg = "" ->
  let payload := if String.eqb msg "" then JObj [] else parse_failure msg pkt in
  let after := handleMessage topic msg pkt st in
  response_of msg pkt = payload /\
  snd after = None /\
  received (fst after) =
    received st ++ ((fun c => (c, payload, pkt)) <$> callbacks (heard topic st)) /\
  heard topic st ≡ₚ listeners topic st.
Proof.
  intros Hmsg payload after.
  assert (Hresp : response_of msg pkt = payload).
  { subst payload. unfold response_of. rewrite empty_length.
    destruct (String.eqb msg "") eqn:E; cbn [negb]; [reflexivity|].
    destruct Hmsg as [-> | ->]; [reflexivity | discriminate]. }
  assert (Hv : payload ≠ JNull).
  { subst payload. now destruct (String.eqb msg ""). }
  split; [exact Hresp|].
  subst after. unfold handleMessage, emit. rewrite Hresp.
  destruct (emit_to_received (heard topic st) payload pkt st Hv) as [Hno Hrec].
  destruct (emit_to (heard topic st) payload pkt st) as [st1 e]; cbn [fst snd] in *.
  split; [exact Hno|]. split; [now rewrite drain_received | apply heard_listeners].
Qed.

End Inbound.

(** ** The telemetry sessions *)

Section Sessions.
Import DabDeviceBase.
Context `{Runtime}.
Variable TOPIC : string.
Variable platformMinFrequency : Q.

Lemma dabResponse_default_eq : dabResponse_default = Normal [("status", JNum 200)].
Proof. reflexivity. Qed.

Lemma dabResponse_400 (e : string) :
  e ≠ "" -> dabResponse 400 (Some e) = Normal [("status", JNum 400); ("error", JStr e)].
Proof.
  intros He. unfold dabResponse.
  replace (Math_floor (400 / 100)) with 4%Z by reflexivity. cbn.
  destruct (String.eqb_spec e ""); [contradiction | reflexivity].
Qed.

Lemma started_eq f :
  started (Some f) = Normal [("status", JNum 200); ("frequency", f)].
Proof. reflexivity. Qed.


(** A start call for a key whose session runs returns the already-started
    response at once, without suspension, and leaves the device as it is. *)
Lemma start_device_refused_while_running data cb st t :
  telemetry st !! device_key = Some t ->
  Number_isInteger (field "frequency" data) = true ->
  startDeviceTelemetryImpl_enter TOPIC data cb st =
    (st, Return (Normal [("status", JNum 400);
                         ("error", JStr "Device telemetry is already started, stop it first")])).
Proof.
  intros Ht Hf. unfold startDeviceTelemetryImpl_enter, telemetry_get.
  rewrite Hf, Ht. cbn [negb]. rewrite bool_decide_eq_true_2 by eauto.
  now rewrite dabResponse_400.
Qed.

Lemma start_app_refused_while_running data cb st appId t :
  field "appId" data = Some (JStr appId) ->
  telemetry st !! appId = Some t ->
  is_number (field "frequency" data) = true ->
  Number_isInteger (field "frequency" data) = true ->
  exists e, startAppTelemetryImpl_enter TOPIC data cb st =
    (st, Return (Normal [("status", JNum 400); ("error", JStr e)])).
Proof.
  intros Ha Ht Hn Hf. unfold startAppTelemetryImpl_enter, telemetry_get.
  rewrite Ha, Hn, Hf, Ht. cbn [negb orb]. rewrite bool_decide_eq_true_2 by eauto.
  eexists. now rewrite dabResponse_400.
Qed.

(** What a start call that nothing interrupts does for the device key,
    when the first sample and its publish succeed. *)
Lemma start_device_alone data cb st f v :
  field "frequency" data = Some f ->
  Number_isInteger (Some f) = true ->
  telemetry_get device_key st = None ->
  cb (produced st) = Normal v ->
  rejections st (length (published st)) = None ->
  startDeviceTelemetryImpl TOPIC data cb st =
    (setInterval_into device_key (PublishResult TOPIC cb) (Some f)
       (fst (client_publish TOPIC (Sample v) (snd (call_producer cb st)))),
     Normal [("status", JNum 200); ("frequency", f)]).
Proof.
  intros Hf Hi Hfree Hv Hok.
  unfold startDeviceTelemetryImpl, startDeviceTelemetryImpl_enter.
  rewrite Hf, Hi, Hfree. cbn [negb]. rewrite bool_decide_eq_false_2 by (intros [? ?]; done).
  cbn [call_producer run_to_completion resume t_body t_payload t_key t_frequency body_topic
       snd fst]. rewrite Hv.
  cbn [client_publish published rejections run_to_completion resume t_body t_payload t_key
       t_frequency body_topic snd fst].
  rewrite Hok. now rewrite started_eq.
Qed.



(** X3. A start call for a key whose session runs returns the 400
    already-started response and changes nothing: for the device key and
    for an application id. *)
Theorem start_refused_while_session_runs data cb st t :
  Number_isInteger (field "frequency" data) = true ->
  (telemetry st !! device_key = Some t ->
     startDeviceTelemetryImpl TOPIC data cb st =
       (st, Normal [("status", JNum 400);
                    ("error", JStr "Device telemetry is already started, stop it first")]))
  /\ (forall appId, field "appId" data = Some (JStr appId) ->
        telemetry st !! appId = Some t ->
        startAppTelemetryImpl TOPIC data cb st =
          (st, Normal [("status", JNum 400);
                       ("error", JStr ("App telemetry is already started for " +:+ appId
                                         +:+ ", stop it first"))])).
Proof.
  intros Hf. split.
  - intros Ht. unfold startDeviceTelemetryImpl.
    now rewrite (start_device_refused_while_running data cb st t Ht Hf).
  - intros appId Ha Ht. unfold startAppTelemetryImpl, startAppTelemetryImpl_enter, telemetry_get.
    assert (Hn : is_number (field "frequency" data) = true).
    { destruct (field "frequency" data) as [[| | | | |]|]; done. }
    rewrite Ha, Hn, Hf, Ht. cbn [negb orb]. rewrite bool_decide_eq_true_2 by eauto.
    cbn [run_to_completion]. now rewrite dabResponse_400.
Qed.

(** X4. A start call for the device key that nothing interrupts, made
    with an integer frequency while no device session is recorded,
    invokes the producer once.  When the producer gives a sample and the
    transport accepts its publish, the sample is published to the
    metrics topic, a timer is set under the device key and the call
    returns status 200; every period of that timer invokes the producer
    once more and publishes what it gives, if it gives something, to the
    same topic.  When the producer fails, the call is rejected with its
    error, and nothing is published and no timer set; when the publish
    is rejected, the call is rejected with that error and no timer is
    set. *)
Theorem device_session_publishes_every_period data cb st f :
  field "frequency" data = Some f ->
  Number_isInteger (Some f) = true ->
  telemetry_get device_key st = None ->
  let t := next_timer st in
  let r := startDeviceTelemetryImpl TOPIC data cb st in
  produced (fst r) = S (produced st)
  /\ (forall v,
        cb (produced st) = Normal v -> rejections st (length (published st)) = None ->
        snd r = Normal [("status", JNum 200); ("frequency", f)]
        /\ published (fst r) = published st ++ [(TOPIC, Sample v)]
        /\ telemetry (fst r) !! device_key = Some t
        /\ forall s, intervals s !! t = intervals (fst r) !! t ->
             produced (tick t s) = S (produced s)
             /\ (forall w, cb (produced s) = Normal w ->
                   published (tick t s) = published s ++ [(TOPIC, Sample w)])
             /\ (forall e, cb (produced s) = Throw e -> published (tick t s) = published s))
  /\ (forall e,
        cb (produced st) = Throw e ->
        snd r = Throw e /\ published (fst r) = published st
        /\ telemetry (fst r) = telemetry st /\ intervals (fst r) = intervals st)
  /\ (forall v e,
        cb (produced st) = Normal v -> rejections st (length (published st)) = Some e ->
        snd r = Throw e /\ published (fst r) = published st ++ [(TOPIC, Sample v)]
        /\ telemetry (fst r) = telemetry st /\ intervals (fst r) = intervals st).
Proof.
  intros Hf Hi Hfree t r.
  assert (Hr : r = run_to_completion
                     (snd (call_producer cb st),
                      Await (AwaitingSample
                        {| t_key := device_key; t_body := PublishResult TOPIC cb;
                           t_frequency := Some f;
                           t_payload := match cb (produced st) with
                                        | Normal v => Normal (Sample v)
                                        | Throw e => Throw e
                                        end |}))).
  { unfold r, startDeviceTelemetryImpl, startDeviceTelemetryImpl_enter.
    rewrite Hf, Hi, Hfree. cbn [negb]. now rewrite bool_decide_eq_false_2 by (intros [? ?]; done). }
  split; [|split; [|split]].
  - rewrite Hr. cbn [run_to_completion resume t_payload].
    destruct (cb (produced st)) as [v|e]; [|reflexivity].
    cbn [client_publish call_producer snd fst run_to_completion resume t_body body_topic
         published rejections].
    destruct (rejections st (length (published st)));
      cbn [run_to_completion resume fst produced setInterval_into]; reflexivity.
  - intros v Hv Hok. unfold r.
    rewrite (start_device_alone data cb st f v Hf Hi Hfree Hv Hok). cbn [fst snd].
    split; [reflexivity|]. split; [reflexivity|].
    split; [cbn; now rewrite lookup_insert_eq|].
    intros s Hs. unfold tick. rewrite Hs. cbn [setInterval_into intervals].
    rewrite lookup_insert_eq. cbn [iv_body call_producer].
    split; [|split].
    + now destruct (cb (produced s)).
    + intros w ->. reflexivity.
    + intros e ->. reflexivity.
  - intros e He. rewrite Hr, He. cbn. auto.
  - intros v e Hv Hno. rewrite Hr, Hv.
    cbn [run_to_completion resume t_payload t_body body_topic client_publish call_producer
         snd fst published rejections].
    rewrite Hno. cbn. auto.
Qed.

(** The application path never invokes the producer: not in the start
    call, whatever it returns, and not in a period of its timer. *)
Lemma start_app_never_calls_producer data cb st :
  produced (fst (startAppTelemetryImpl TOPIC data cb st)) = produced st.
Proof.
  unfold startAppTelemetryImpl, startAppTelemetryImpl_enter.
  destruct (field "appId" data) as [[| | |a| |]|]; try reflexivity.
  destruct (negb (is_number (field "frequency" data))
            || negb (Number_isInteger (field "frequency" data))); [reflexivity|].
  destruct (bool_decide (is_Some (telemetry_get a st))); [reflexivity|].
  cbn [run_to_completion resume t_payload client_publish].
  destruct (rejections st (length (published st))); reflexivity.
Qed.

Lemma tick_app_publishes_the_function t topic cb delay s :
  intervals s !! t = Some {| iv_body := PublishCallback topic cb; iv_delay := delay |} ->
  produced (tick t s) = produced s
  /\ published (tick t s) = published s ++ [(topic, FunctionObject)].
Proof. intros Ht. unfold tick. rewrite Ht. now cbn. Qed.

Lemma tick_cleared t st : intervals st !! t = None -> tick t st = st.
Proof. intros Ht. unfold tick. now rewrite Ht. Qed.

(** X5. A stop call for a key that is an own property of the session map
    or is no property at all: without a session it returns the 400
    not-started response and changes nothing; with one it clears the
    timer and removes the key, after which no period of that timer
    invokes the producer or publishes again. *)
Theorem stop_session_of_own_key data appId st :
  field "appId" data = Some (JStr appId) ->
  (telemetry_get appId st = None ->
     stopAppTelemetry data st =
       (st, Normal [("status", JNum 400);
                    ("error", JStr "Device telemetry for ${data.app} not started")]))
  /\ (forall t, telemetry st !! appId = Some t ->
        let st' := fst (stopAppTelemetry data st) in
        snd (stopAppTelemetry data st) = Normal [("status", JNum 200)]
        /\ telemetry st' !! appId = None /\ intervals st' !! t = None
        /\ tick t st' = st'
        /\ published st' = published st /\ produced st' = produced st)
  /\ (telemetry st !! device_key = None ->
        stopDeviceTelemetryImpl st =
          (st, Normal [("status", JNum 400); ("error", JStr "Device telemetry not started")]))
  /\ (forall t, telemetry st !! device_key = Some t ->
        let st' := fst (stopDeviceTelemetryImpl st) in
        snd (stopDeviceTelemetryImpl st) = Normal [("status", JNum 200)]
        /\ telemetry st' !! device_key = None /\ intervals st' !! t = None
        /\ tick t st' = st'
        /\ published st' = published st /\ produced st' = produced st).
Proof.
  intros Ha. split; [|split; [|split]].
  - intros Hnone. unfold stopAppTelemetry. rewrite Ha, Hnone. now rewrite dabResponse_400.
  - intros t Ht. unfold stopAppTelemetry, telemetry_get. rewrite Ha, Ht. cbn.
    rewrite !lookup_delete_eq. repeat split.
    apply tick_cleared. cbn. apply lookup_delete_eq.
  - intros Hnone. unfold stopDeviceTelemetryImpl, telemetry_get. rewrite Hnone. cbn.
    now rewrite dabResponse_400.
  - intros t Ht. unfold stopDeviceTelemetryImpl, telemetry_get. rewrite Ht. cbn.
    rewrite !lookup_delete_eq. repeat split.
    apply tick_cleared. cbn. apply lookup_delete_eq.
Qed.

End Sessions.

(** ** The adb binding: application ids *)

Section ApplicationIds.
Import DabDevice.
Context `{Runtime} `{Adb}.
Variable appMap : gmap string app_config.

Lemma not_found_404 appId :
  not_found appId
  = Normal [("status", JNum 404);
            ("error", JStr ("Couldn't find data for app " +:+ appId +:+ " in config file"))].
Proof. reflexivity. Qed.

Lemma truthy_name (p : string) : p ≠ "" -> truthy (JStr <$> Some p) = true.
Proof. intros Hp. cbn. now destruct (String.eqb_spec p ""). Qed.

(** C10. [launchApp], [exitApp] and [getAppState] lower-case the [appId]
    of the request before they look it up in the application map.

    A request with a string [appId] and the same request with that
    [appId] already in lower case end the same way: same response, same
    commands to the device, same log, same payload left behind, which
    carries the lower-cased id.  The application map is consulted under
    the lower-cased id and nowhere else: when it has no intent (no
    package) there, the answer is the 404 response that names the
    lower-cased id and adb is sent nothing; when it has, [launchApp]
    starts the intent of that entry, [getAppState] asks adb for the
    status of its package, and [exitApp] does so too and answers with
    the state adb reports, or with the 500 response when adb fails.
    ([toLowerCase] leaves a lower-cased string as it is.) *)
Theorem lowercase_appId_gives_same_result (o : object) (s : string) (d : adb) :
  field "appId" o = Some (JStr s) ->
  toLowerCase (toLowerCase s) = toLowerCase s ->
  let data := JObj o in
  let lowered := JObj (set_field "appId" (JStr (toLowerCase s)) o) in
  let unknown :=
    Normal [("status", JNum 404);
            ("error", JStr ("Couldn't find data for app " +:+ toLowerCase s
                              +:+ " in config file"))] in
  (launchApp appMap data d = launchApp appMap lowered d
   /\ exitApp appMap data d = exitApp appMap lowered d
   /\ getAppState appMap data d = getAppState appMap lowered d)
  /\ (data_after (launchApp appMap data d) = lowered
      /\ data_after (exitApp appMap data d) = lowered
      /\ data_after (getAppState appMap data d) = lowered)
  /\ (forall appMap' : gmap string app_config,
        appMap' !! toLowerCase s = appMap !! toLowerCase s ->
        launchApp appMap' data d = launchApp appMap data d
        /\ exitApp appMap' data d = exitApp appMap data d
        /\ getAppState appMap' data d = getAppState appMap data d)
  /\ (config_intent (appMap !! toLowerCase s) = None ->
        response (launchApp appMap data d) = unknown
        /\ device_after (launchApp appMap data d) = d)
  /\ (config_package (appMap !! toLowerCase s) = None ->
        (response (exitApp appMap data d) = unknown
         /\ device_after (exitApp appMap data d) = d)
        /\ (response (getAppState appMap data d) = unknown
            /\ device_after (getAppState appMap data d) = d))
  /\ (forall intent0,
        config_intent (appMap !! toLowerCase s) = Some intent0 ->
        field "parameters" o = None ->
        device_after (launchApp appMap data d) = snd (adb_start (JStr <$> intent0) d))
  /\ (forall p,
        config_package (appMap !! toLowerCase s) = Some p -> p ≠ "" ->
        device_after (getAppState appMap data d) = snd (adb_status p d)
        /\ (forall st d1,
              adb_status p d = (Normal st, d1) ->
              field "force" o = None -> is_status (mjoin st) Running = false ->
              response (exitApp appMap data d)
              = Normal [("status", JNum 200);
                        ("state", adbAppStatusToDabAppState (mjoin st))]
              /\ device_after (exitApp appMap data d) = d1)
        /\ (forall e d1,
              adb_status p d = (Throw e, d1) ->
              response (exitApp appMap data d) = dabResponse 500 (Some (message_of e))
              /\ device_after (exitApp appMap data d) = d1)).
Proof.
  intros Hid Hidem data lowered unknown.
  assert (Hlow : field "appId" (set_field "appId" (JStr (toLowerCase s)) o)
                 = Some (JStr (toLowerCase s))).
  { apply field_set_field_eq. }
  assert (Hset : set_field "appId" (JStr (toLowerCase s))
                   (set_field "appId" (JStr (toLowerCase s)) o)
                 = set_field "appId" (JStr (toLowerCase s)) o).
  { apply set_field_twice. }
  assert (Hforce : field "force" (set_field "appId" (JStr (toLowerCase s)) o)
                   = field "force" o).
  { now apply field_set_field_ne. }
  assert (Hparams : field "parameters" (set_field "appId" (JStr (toLowerCase s)) o)
                    = field "parameters" o).
  { now apply field_set_field_ne. }
  split; [|split; [|split; [|split; [|split; [|split]]]]].
  - repeat split.
    + unfold launchApp, data, lowered. cbn [prop own]. rewrite Hid, Hlow, Hidem, Hset.
      reflexivity.
    + unfold exitApp, data, lowered. cbn [prop own]. rewrite Hid, Hlow, Hidem, Hset.
      reflexivity.
    + unfold getAppState, data, lowered. cbn [prop own]. rewrite Hid, Hlow, Hidem, Hset.
      reflexivity.
  - repeat split.
    + unfold launchApp, data. cbn [prop own]. rewrite Hid.
      repeat case_match; reflexivity.
    + unfold exitApp, data. cbn [prop own]. rewrite Hid.
      repeat case_match; reflexivity.
    + unfold getAppState, data. cbn [prop own]. rewrite Hid.
      repeat case_match; reflexivity.
  - intros appMap' Hsame. repeat split.
    + unfold launchApp, data. cbn [prop own]. rewrite Hid, Hsame. reflexivity.
    + unfold exitApp, data. cbn [prop own]. rewrite Hid, Hsame. reflexivity.
    + unfold getAppState, data. cbn [prop own]. rewrite Hid, Hsame. reflexivity.
  - intros Hnone. unfold launchApp, data. cbn [prop own]. rewrite Hid, Hnone.
    cbn [response device_after]. now rewrite not_found_404.
  - intros Hnone. split.
    + unfold exitApp, data. cbn [prop own]. rewrite Hid, Hnone.
      cbn [fmap option_fmap option_map truthy negb response device_after].
      now rewrite not_found_404.
    + unfold getAppState, data. cbn [prop own]. rewrite Hid, Hnone.
      cbn [fmap option_fmap option_map truthy negb response device_after].
      now rewrite not_found_404.
  - intros intent0 Hintent Hno. unfold launchApp, data. cbn [prop own].
    rewrite Hid, Hintent, Hparams, Hno. cbn [truthy].
    destruct (adb_start (JStr <$> intent0) d) as [[u|e] d1]; reflexivity.
  - intros p Hp Hne. split.
    + unfold getAppState, data. cbn [prop own]. rewrite Hid, Hp, (truthy_name p Hne).
      cbn [negb]. change (default "" (Some p)) with p.
      destruct (adb_status p d) as [[[st|]|e] d1]; reflexivity.
    + split.
      * intros st d1 Hst Hnoforce Hrun. unfold exitApp, data. cbn [prop own].
        rewrite Hid, Hp, (truthy_name p Hne). cbn [negb].
        change (default "" (Some p)) with p. rewrite Hst, Hforce, Hnoforce.
        cbn [truthy]. rewrite Hrun. cbn [response device_after]. split; reflexivity.
      * intros e d1 Hst. unfold exitApp, data. cbn [prop own].
        rewrite Hid, Hp, (truthy_name p Hne). cbn [negb].
        change (default "" (Some p)) with p. rewrite Hst. split; reflexivity.
Qed.

End ApplicationIds.

(** ** Subscriptions: listeners and the transport *)

Section Subscriptions.
Import Client.
Context `{Runtime}.

Lemma removeListener_absent event l (xs ys : list (string * listener)) :
  Forall (fun ec => ec ≠ (event, l)) xs ->
  removeListener event l (xs ++ ys) = xs ++ removeListener event l ys.
Proof.
  induction 1 as [|[e c] xs Hx _ IH]; cbn; [done|].
  destruct (String.eqb e event && listener_eqb c l) eqn:E; [|now rewrite IH].
  exfalso. apply Hx. apply andb_true_iff in E as [E1 E2].
  apply String.eqb_eq in E1. subst e. f_equal.
  destruct c as [a|a], l as [b|b]; cbn in E2; try discriminate;
    apply Nat.eqb_eq in E2; now subst.
Qed.

Lemma listener_eqb_refl l : listener_eqb l l = true.
Proof. destruct l; cbn; apply Nat.eqb_refl. Qed.

Lemma removeListener_last event l (xs : list (string * listener)) :
  Forall (fun ec => ec ≠ (event, l)) xs ->
  removeListener event l (xs ++ [(event, l)]) = xs.
Proof.
  intros Hxs. rewrite removeListener_absent by done. cbn.
  now rewrite String.eqb_refl, listener_eqb_refl, app_nil_r.
Qed.

Lemma unheard_absent event l st :
  event_matches event event = true -> listeners event st = [] ->
  Forall (fun ec => ec ≠ (event, l)) (emitter st).
Proof.
  intros Hrefl Hnone. apply Forall_forall. intros ec Hin ->.
  unfold listeners in Hnone. apply map_eq_nil in Hnone.
  assert (Hf : (event, l) ∈ filter (fun ec => event_matches ec.1 event = true) (emitter st)).
  { apply list_elem_of_filter. split; [exact Hrefl | exact Hin]. }
  rewrite Hnone in Hf. now apply elem_of_nil in Hf.
Qed.

Lemma well_formed_absent event st :
  well_formed st ->
  Forall (fun ec => ec ≠ (event, RequestListener (length (requests st)))) (emitter st).
Proof.
  unfold well_formed. intros Hwf. eapply Forall_impl; [exact Hwf|].
  intros [e [m|c]]; cbn; intros Hm [=]; lia.
Qed.

(** X6. Two callbacks subscribed to a topic that had no listener: each
    [subscribe] asks the transport for the topic; the end of the first
    removes only its own listener and sends nothing; the end of the
    second, which leaves no listener for the event, brings the emitter
    back to what it was and sends the one unsubscribe. *)
Theorem last_end_unsubscribes topic c1 c2 st :
  c1 ≠ c2 ->
  event_matches (convertPattern topic) (convertPattern topic) = true ->
  listeners (convertPattern topic) st = [] ->
  let st2 := subscribe topic (Callback c2) (subscribe topic (Callback c1) st) in
  let st3 := end_subscription topic (Callback c1) st2 in
  let st4 := end_subscription topic (Callback c2) st3 in
  transport st2 = transport st ++ [ClientSubscribe topic; ClientSubscribe topic]
  /\ listeners (convertPattern topic) st3 = [Callback c2]
  /\ transport st3 = transport st2
  /\ emitter st4 = emitter st
  /\ transport st4 = transport st2 ++ [ClientUnsubscribe topic].
Proof.
  intros Hne Hrefl Hnone st2 st3 st4.
  set (ev := convertPattern topic) in *.
  assert (Habs : forall l, Forall (fun ec => ec ≠ (ev, l)) (emitter st)).
  { intros l. now apply unheard_absent. }
  assert (He2 : emitter st2 = emitter st ++ [(ev, Callback c1); (ev, Callback c2)]).
  { subst st2. unfold subscribe. cbn. now rewrite <- app_assoc. }
  assert (Hrem1 : removeListener ev (Callback c1) (emitter st2)
                  = emitter st ++ [(ev, Callback c2)]).
  { rewrite He2, removeListener_absent by apply Habs. cbn.
    now rewrite String.eqb_refl, Nat.eqb_refl. }
  assert (Hl3 : listeners ev (with_emitter (emitter st ++ [(ev, Callback c2)]) st2)
                = [Callback c2]).
  { unfold listeners in *. cbn [emitter with_emitter]. rewrite filter_app, map_app, Hnone.
    rewrite filter_cons, filter_nil. cbn. now rewrite decide_True. }
  assert (H3 : st3 = with_emitter (emitter st ++ [(ev, Callback c2)]) st2).
  { subst st3. unfold end_subscription. fold ev. rewrite Hrem1, Hl3. reflexivity. }
  split. { subst st2. unfold subscribe. cbn. now rewrite <- app_assoc. }
  split. { now rewrite H3. }
  split. { now rewrite H3. }
  assert (Hrem2 : removeListener ev (Callback c2) (emitter st3) = emitter st).
  { rewrite H3. cbn. now apply removeListener_last. }
  subst st4. unfold end_subscription. fold ev. rewrite Hrem2.
  assert (Hl4 : listeners ev (with_emitter (emitter st) st3) = []).
  { unfold listeners in *. cbn. exact Hnone. }
  rewrite Hl4. cbn. split; [reflexivity|]. now rewrite H3.
Qed.

Lemma drain_idle st : microtasks st = [] -> drain st = st.
Proof. intros Hm. unfold drain. rewrite Hm. destruct st; cbn in *; now subst. Qed.

Lemma drain_one n r st :
  microtasks st = [n] -> requests st !! n = Some r ->
  drain st = end_subscription (rq_response r) (RequestListener n) (with_microtasks [] st).
Proof. intros Hm Hr. unfold drain. rewrite Hm. cbn. unfold run_end. cbn. now rewrite Hr. Qed.

Lemma emitter_end_subscription topic l st :
  emitter (end_subscription topic l st) = removeListener (convertPattern topic) l (emitter st).
Proof. unfold end_subscription. now case_match. Qed.

Lemma microtasks_end_subscription topic l st :
  microtasks (end_subscription topic l st) = microtasks st.
Proof. unfold end_subscription. now case_match. Qed.

(** X7. A request that gets no response: when its timer fires, the promise
    is rejected with the [TimeoutError] that names the topic and the
    duration, and the listener of the request is removed, so that the
    emitter is back to what it was before the call; this holds whether
    the subscription was granted before the timer fired or after. *)
Theorem timeout_rejects_and_restores_listeners topic payload options requestId st :
  well_formed st -> microtasks st = [] ->
  let n := length (requests st) in
  let st1 := request topic payload options requestId st in
  let early := timer_fired n (subscribe_granted n st1) in
  let late := subscribe_granted n (timer_fired n st1) in
  let error := TimeoutError (timeout_message (fresh_request topic requestId options)) in
  outcome n early = Some (Rejected (ThrownError error))
  /\ outcome n late = Some (Rejected (ThrownError error))
  /\ emitter early = emitter st
  /\ emitter late = emitter st
  /\ emitter (timer_fired n st1) = emitter st1.
Proof.
  intros Hwf Hmicro n st1 early late error.
  pose proof (request_creates topic payload options requestId st) as Hreq.
  fold st1 n in Hreq.
  set (r0 := fresh_request topic requestId options) in *.
  set (resp := "_response/" +:+ (topic +:+ "/" +:+ requestId)).
  assert (He1 : emitter st1 = emitter st ++ [(convertPattern resp, RequestListener n)])
    by reflexivity.
  assert (Hm1 : microtasks st1 = []) by exact Hmicro.
  assert (Hrem : removeListener (convertPattern resp) (RequestListener n) (emitter st1)
                 = emitter st).
  { rewrite He1. apply removeListener_last. now apply well_formed_absent. }
  (* the subscription is granted, then the timer fires *)
  set (g := subscribe_granted n st1).
  assert (Hg : requests g !! n = Some (set_waiting 0 (set_subscription SubGranted r0))
               /\ emitter g = emitter st1 /\ microtasks g = []).
  { subst g. unfold subscribe_granted. rewrite Hreq. cbn [rq_subscription r0 fresh_request].
    cbn [rq_waiting replicate]. rewrite app_nil_r.
    rewrite drain_idle by exact Hm1.
    split; [|split; [reflexivity | exact Hm1]].
    cbn [requests with_microtasks]. now rewrite lookup_update_request_eq, Hreq. }
  destruct Hg as (Hg & Heg & Hmg).
  assert (Hearly : outcome n early = Some (Rejected (ThrownError error))
                   /\ emitter early = emitter st).
  { subst early. fold g. unfold timer_fired. rewrite Hg.
    cbn [rq_timer set_waiting set_subscription r0 fresh_request].
    set (s := then_end n _).
    assert (Hs : requests s !! n
                 = Some (set_promise (Rejected (ThrownError error))
                           (set_timer false (set_waiting 0 (set_subscription SubGranted r0))))
                 /\ emitter s = emitter st1 /\ microtasks s = [n]).
    { subst s. unfold then_end, reject.
      rewrite !lookup_update_request_eq, Hg. cbn [fmap option_fmap option_map].
      cbn [settle rq_promise set_timer set_waiting set_subscription r0 fresh_request
             rq_subscription set_promise].
      split; [|split].
      - cbn [requests with_microtasks]. now rewrite !lookup_update_request_eq, Hg.
      - exact Heg.
      - cbn. now rewrite Hmg. }
    destruct Hs as (Hs & Hes & Hms).
    rewrite (drain_one n _ s Hms Hs).
    split.
    - unfold outcome. rewrite end_subscription_requests. cbn [requests with_microtasks].
      now rewrite Hs.
    - rewrite emitter_end_subscription. cbn [emitter with_microtasks]. rewrite Hes.
      exact Hrem. }
  (* the timer fires, then the subscription is granted *)
  set (t := timer_fired n st1).
  assert (Ht : requests t !! n
               = Some (set_waiting 1 (set_promise (Rejected (ThrownError error))
                                        (set_timer false r0)))
               /\ emitter t = emitter st1 /\ microtasks t = []).
  { subst t. unfold timer_fired. rewrite Hreq. cbn [rq_timer r0 fresh_request].
    set (s := then_end n _).
    assert (Hs : requests s !! n
                 = Some (set_waiting 1 (set_promise (Rejected (ThrownError error))
                                          (set_timer false r0)))
                 /\ emitter s = emitter st1 /\ microtasks s = []).
    { subst s. unfold then_end, reject.
      rewrite !lookup_update_request_eq, Hreq. cbn [fmap option_fmap option_map].
      cbn [settle rq_promise set_timer r0 fresh_request rq_subscription set_promise].
      split; [|split; [reflexivity | exact Hm1]].
      rewrite !lookup_update_request_eq, Hreq. reflexivity. }
    destruct Hs as (Hs & Hes & Hms).
    rewrite drain_idle by exact Hms. auto. }
  destruct Ht as (Ht & Het & Hmt).
  assert (Hlate : outcome n late = Some (Rejected (ThrownError error))
                  /\ emitter late = emitter st).
  { subst late. fold t. unfold subscribe_granted. rewrite Ht.
    cbn [rq_subscription set_waiting set_promise set_timer r0 fresh_request rq_waiting
           replicate].
    set (s := with_microtasks _ _).
    assert (Hs : requests s !! n
                 = Some (set_waiting 0 (set_subscription SubGranted
                           (set_waiting 1 (set_promise (Rejected (ThrownError error))
                                             (set_timer false r0)))))
                 /\ emitter s = emitter st1 /\ microtasks s = [n]).
    { subst s. cbn [requests emitter microtasks with_microtasks update_request with_requests].
      split; [|split].
      - change (alter ?f n (requests t)) with (requests (update_request n f t)).
        now rewrite lookup_update_request_eq, Ht.
      - exact Het.
      - now rewrite Hmt. }
    destruct Hs as (Hs & Hes & Hms).
    rewrite (drain_one n _ s Hms Hs).
    split.
    - unfold outcome. rewrite end_subscription_requests. cbn [requests with_microtasks].
      now rewrite Hs.
    - rewrite emitter_end_subscription. cbn [emitter with_microtasks]. rewrite Hes.
      exact Hrem. }
  destruct Hearly as [? ?], Hlate as [? ?]. repeat split; assumption.
Qed.
Lemma field_set_field k k' v (o : object) :
  field k (set_field k' v o) = if String.eqb k k' then Some v else field k o.
Proof.
  destruct (String.eqb_spec k k') as [->|Hne].
  - apply field_set_field_eq.
  - now apply field_set_field_ne.
Qed.

Lemma field_spread k (b a : object) :
  NoDup b.*1 ->
  field k (spread a b) = match field k b with Some v => Some v | None => field k a end.
Proof.
  unfold spread. revert a. induction b as [|[k' v] b IH]; intros a Hnd; cbn; [done|].
  apply NoDup_cons in Hnd as [Hk' Hnd]. rewrite IH by done.
  destruct (String.eqb_spec k k') as [->|Hne].
  - assert (Hb : field k' b = None).
    { clear -Hk'. induction b as [|[k0 v0] b IH]; cbn; [done|].
      destruct (String.eqb_spec k' k0) as [->|Hne].
      - exfalso. apply Hk'. cbn. left.
      - apply IH. intros Hin. apply Hk'. cbn. now right. }
    now rewrite Hb, field_set_field_eq.
  - destruct (field k b); [done|]. now apply field_set_field_ne.
Qed.

(** X8. [publish] hands the transport the caller's options laid over the
    defaults: an option the caller gives is passed as given, [qos] and
    [retain] default to 2 and [false], and nothing else is added. *)
Theorem publish_options_over_defaults topic msg (options : object) st :
  NoDup options.*1 ->
  exists merged,
    transport (publish topic msg options st)
      = transport st ++ [ClientPublish topic msg merged]
    /\ (forall k, field k merged =
          match field k options with
          | Some v => Some v
          | None => if String.eqb k "qos" then Some (JNum 2)
                    else if String.eqb k "retain" then Some (JBool false) else None
          end)
    /\ emitter (publish topic msg options st) = emitter st
    /\ requests (publish topic msg options st) = requests st.
Proof.
  intros Hnd. eexists. split; [reflexivity|]. split; [|split; reflexivity].
  intros k. rewrite field_spread by done. destruct (field k options); [done|].
  cbn. reflexivity.
Qed.

End Subscriptions.

(** ** The dispatcher *)

Section Dispatching.
Import Client Dispatcher.
Context `{Runtime}.

Lemma publish_appends topic msg st :
  transport (publish topic msg [] st)
  = transport st ++ [ClientPublish topic msg DEFAULT_PUBLISH_OPTIONS].
Proof. reflexivity. Qed.


End Dispatching.

Section EndToEnd.
Import Client Dispatcher.
Context `{Runtime}.
Variable JSON_stringify : json -> string.




End EndToEnd.

(** ** Connecting *)

Section Connecting.
Import Connect.
Variable onConnected : option (nat -> completion unit).

Lemma coherent_opened : coherent onConnected opened.
Proof.
  unfold coherent. cbn. split; [discriminate|]. split; [split; [discriminate | lia]|].
  split; [now destruct onConnected|]. split; [discriminate|]. split; [reflexivity | lia].
Qed.

Lemma coherent_react c e :
  coherent onConnected c -> coherent onConnected (react onConnected c e).
Proof.
  intros (Hic & Hcl & Hon & Hli & Hclo & Hlen).
  destruct e as [error| |]; cbn [react].
  - destruct (onError_listening c) eqn:El; [|unfold coherent; rewrite El; auto 10].
    unfold coherent, onError. cbn.
    split; [exact Hic|]. split; [exact Hcl|]. split; [exact Hon|].
    split; [reflexivity|]. split; [discriminate|].
    rewrite Hclo by reflexivity.
    destruct (negb (connected c) && negb (initialized c)); cbn; lia.
  - unfold onConnect. destruct (initialized c) eqn:Ei; cbn [negb].
    + unfold coherent. cbn.
      split; [intros _; now apply Hic|]. split; [exact Hcl|]. split; [exact Hon|].
      split; [exact Hli|]. split; [exact Hclo | exact Hlen].
    + unfold coherent, settle. destruct onConnected as [f|]; cbn in *.
      * split; [auto|]. split; [split; [lia | reflexivity]|].
        split; [now rewrite Hon|]. split; [auto|]. split; [discriminate | exact Hlen].
      * split; [auto|]. split; [split; [lia | reflexivity]|].
        split; [exact Hon|]. split; [auto|]. split; [discriminate | exact Hlen].
  - destruct (closing c) as [|error rest] eqn:Ec; [unfold coherent; rewrite Ec; auto 10|].
    unfold coherent, settle. cbn.
    split; [exact Hic|]. split; [exact Hcl|]. split; [exact Hon|].
    split; [exact Hli|]. split.
    + intros Hl. specialize (Hclo Hl). discriminate.
    + cbn in Hlen. lia.
Qed.

Lemma coherent_run es c :
  coherent onConnected c -> coherent onConnected (run onConnected es c).
Proof.
  revert c. unfold run. induction es as [|e es IH]; intros c Hc; cbn; [exact Hc|].
  apply IH. now apply coherent_react.
Qed.

Lemma connected_react c e :
  coherent onConnected c ->
  connected (react onConnected c e)
  = connected c || match e with EmitConnect => true | _ => false end.
Proof.
  intros (Hic & _). destruct e as [error| |]; cbn [react].
  - destruct (onError_listening c); cbn; now rewrite orb_false_r.
  - unfold onConnect. destruct (initialized c) eqn:E; cbn [negb].
    + cbn. now rewrite Hic.
    + destruct onConnected; cbn; now rewrite orb_true_r.
  - destruct (closing c); cbn; now rewrite orb_false_r.
Qed.

Lemma connected_run es c :
  coherent onConnected c ->
  connected (run onConnected es c) = true <-> connected c = true \/ EmitConnect ∈ es.
Proof.
  revert c. unfold run. induction es as [|e es IH]; intros c Hc; cbn [fold_left].
  - split; [auto|]. intros [?|Hin]; [done|]. now apply elem_of_nil in Hin.
  - rewrite (IH _ (coherent_react c e Hc)), (connected_react c e Hc), orb_true_iff,
      elem_of_cons. split.
    + intros [[?|He]|?]; auto. destruct e; try discriminate. auto.
    + intros [?|[<-|?]]; auto.
Qed.

(** With a callback that is absent or returns, the two flags move
    together and one client is all there is. *)
Lemma quiet_react c e :
  quiet onConnected ->
  connected c = initialized c /\ clients c <= 1 /\ (connected c = false -> clients c = 0) ->
  let c' := react onConnected c e in
  connected c' = initialized c' /\ clients c' <= 1 /\ (connected c' = false -> clients c' = 0).
Proof.
  intros Hq (Hci & Hle & Hzero). destruct e as [error| |]; cbn [react].
  - destruct (onError_listening c); cbn; auto.
  - unfold onConnect. destruct (initialized c) eqn:Ei; cbn [negb].
    + cbn. rewrite Hci. split; [reflexivity|]. split; [exact Hle | discriminate].
    + rewrite Hci in Hzero. specialize (Hzero eq_refl).
      unfold quiet in Hq. destruct onConnected as [f|]; cbn.
      * destruct (Hq (onConnected_calls c)) as [u ->]. rewrite Hzero.
        split; [reflexivity|]. split; [lia | discriminate].
      * rewrite Hzero. split; [reflexivity|]. split; [lia | discriminate].
  - destruct (closing c); cbn; auto.
Qed.

Lemma quiet_run es c :
  quiet onConnected ->
  connected c = initialized c /\ clients c <= 1 /\ (connected c = false -> clients c = 0) ->
  let c' := run onConnected es c in
  connected c' = initialized c' /\ clients c' <= 1.
Proof.
  intros Hq. revert c. unfold run. induction es as [|e es IH]; intros c Hc; cbn [fold_left].
  - destruct Hc as (? & ? & _). auto.
  - apply IH. now apply quiet_react.
Qed.

(** With a callback that throws, [initialized] is never set and every
    "connect" constructs a client. *)
Lemma throwing_run es c :
  throwing onConnected -> initialized c = false ->
  let c' := run onConnected es c in
  initialized c' = false /\ clients c' = clients c + connects es.
Proof.
  intros Ht. revert c. unfold run. induction es as [|e es IH]; intros c Hi; cbn [fold_left].
  - cbn. split; [exact Hi | lia].
  - destruct e as [error| |]; cbn [react connects].
    + destruct (onError_listening c); [|now apply IH].
      exact (IH (onError error c) Hi).
    + unfold throwing in Ht. destruct onConnected as [f|] eqn:Eo; [|contradiction].
      destruct (Ht (onConnected_calls c)) as [e He].
      assert (Hstep : initialized (onConnect (Some f) c) = false
                      /\ clients (onConnect (Some f) c) = S (clients c)).
      { unfold onConnect. rewrite Hi. cbn. now rewrite He. }
      destruct Hstep as [Hi' Hc'].
      destruct (IH (onConnect (Some f) c) Hi') as [IH1 IH2].
      split; [exact IH1|]. rewrite IH2, Hc'. lia.
    + destruct (closing c) as [|error rest]; [now apply IH|].
      match goal with
      | |- context [fold_left _ es ?c'] => exact (IH c' Hi)
      end.
Qed.

(** X11. However the MQTT client's "error" and "connect" events and the
    ends they start follow each other: a [Client] has been constructed
    exactly when a "connect" was emitted; [onConnected] was called as
    often as a [Client] was constructed, or never when the caller gave
    none; [initialized] is set only once [connected] is; and [onError]
    starts at most one [end()].  With an [onConnected] that is absent or
    returns whenever it is called, the two flags are equal and at most
    one [Client] is constructed, so a reconnect constructs nothing anew.
    With an [onConnected] that throws whenever it is called,
    [initialized] is never set and every "connect" constructs another
    [Client]. *)
Theorem connect_constructs_one_client es :
  let c := run onConnected es opened in
  (1 <= clients c <-> EmitConnect ∈ es)
  /\ onConnected_calls c = match onConnected with Some _ => clients c | None => 0 end
  /\ (initialized c = true -> connected c = true)
  /\ length (closing c) <= 1
  /\ (quiet onConnected -> connected c = initialized c /\ clients c <= 1)
  /\ (throwing onConnected -> initialized c = false /\ clients c = connects es).
Proof.
  intros c.
  destruct (coherent_run es opened coherent_opened) as (Hic & Hcl & Hon & _ & _ & Hlen).
  fold c in Hic, Hcl, Hon, Hlen.
  pose proof (connected_run es opened coherent_opened) as Hconn. fold c in Hconn.
  cbn in Hconn.
  split; [|split; [exact Hon|split; [exact Hic|split; [exact Hlen|split]]]].
  - rewrite <- Hcl, Hconn. split; [intros [?|?]; [discriminate | done] | auto].
  - intros Hq. apply (quiet_run es opened Hq). cbn. split; [reflexivity|]. split; [lia | auto].
  - intros Ht. exact (throwing_run es opened Ht eq_refl).
Qed.

Lemma result_final c e : result c ≠ Waiting -> result (react onConnected c e) = result c.
Proof.
  intros Hr. destruct e as [error| |]; cbn [react].
  - now destruct (onError_listening c).
  - unfold onConnect, settle. destruct (initialized c); cbn; [done|].
    destruct onConnected; cbn; now destruct (result c).
  - destruct (closing c); [done|]. unfold settle. cbn. now destruct (result c).
Qed.

Lemma result_final_run es c :
  result c ≠ Waiting -> result (run onConnected es c) = result c.
Proof.
  revert c. unfold run. induction es as [|e es IH]; intros c Hc; cbn; [done|].
  rewrite IH; rewrite result_final; auto.
Qed.

Lemma deaf_to_errors errs c :
  onError_listening c = false -> Forall (fun e => exists x, e = EmitError x) errs ->
  run onConnected errs c = c.
Proof.
  intros Hl Herrs. revert c Hl. unfold run.
  induction Herrs as [|e errs [x ->] _ IH]; intros c Hl; cbn; [done|].
  rewrite Hl. now apply IH.
Qed.

(** X12. The promise of [connect].  When "connect" is the first event,
    the promise is fulfilled and stays so: no error emitted afterwards
    rejects it.  When an "error" comes first, the client is ended and,
    once that end has settled, the promise is rejected with that first
    error; errors emitted in between are not heard. *)
Theorem connect_settles_by_first_event :
  (forall rest, result (run onConnected (EmitConnect :: rest) opened) = Connected)
  /\ (forall error errs rest,
        Forall (fun e => exists x, e = EmitError x) errs ->
        result (run onConnected (EmitError error :: errs ++ EndSettled :: rest) opened)
        = Refused error).
Proof.
  split.
  - intros rest.
    change (run onConnected (EmitConnect :: rest) opened)
      with (run onConnected rest (onConnect onConnected opened)).
    rewrite result_final_run; [|unfold onConnect; destruct onConnected; discriminate].
    unfold onConnect. now destruct onConnected.
  - intros error errs rest Herrs.
    change (run onConnected (EmitError error :: errs ++ EndSettled :: rest) opened)
      with (run onConnected (errs ++ EndSettled :: rest) (onError error opened)).
    unfold run. rewrite fold_left_app. fold (run onConnected errs (onError error opened)).
    rewrite (deaf_to_errors errs (onError error opened) eq_refl Herrs). cbn [fold_left].
    fold (run onConnected rest (react onConnected (onError error opened) EndSettled)).
    now rewrite result_final_run.
Qed.

End Connecting.

(** ** The version topic *)

Section Versions.
Import Version.
Context `{Runtime}.

Lemma lastIndexOf_from_app a s c i found :
  lastIndexOf_from (a +:+ s) c i found
  = lastIndexOf_from s c (i + Z.of_nat (String.length a)) (lastIndexOf_from a c i found).
Proof.
  revert i found. induction a as [|x a IH]; intros i found.
  - cbn. f_equal. lia.
  - change (String x a +:+ s) with (String x (a +:+ s)).
    cbn [lastIndexOf_from String.length]. rewrite IH. f_equal. lia.
Qed.

Lemma lastIndexOf_from_absent s c i found :
  c ∉ list_ascii_of_string s -> lastIndexOf_from s c i found = found.
Proof.
  revert i. induction s as [|x s IH]; intros i Hc; cbn; [reflexivity|].
  cbn in Hc. apply not_elem_of_cons in Hc as [Hx Hs].
  destruct (Ascii.eqb_spec x c) as [->|_]; [done|]. now apply IH.
Qed.

Lemma length_append a s : String.length (a +:+ s) = String.length a + String.length s.
Proof. induction a as [|x a IH]; simpl; [reflexivity | now rewrite IH]. Qed.

Lemma substring_prefix a s : String.substring 0 (String.length a) (a +:+ s) = a.
Proof. induction a as [|x a IH]; simpl; [now destruct s | now rewrite IH]. Qed.

(** X13. [version()] answers status 200 with one version: for a package
    version `a.b` whose last component [b] has no dot and which does not
    read as a number, that is [a], the version without its last
    component. *)
Theorem version_drops_last_component a b :
  StringToNumber (a +:+ "." +:+ b) = None ->
  "."%char ∉ list_ascii_of_string b ->
  version (a +:+ "." +:+ b) = [("status", JNum 200); ("versions", JArr [JStr a])].
Proof.
  intros Hnan Hb. unfold version. rewrite Hnan. cbn [ToInteger].
  assert (Hlast : lastIndexOf (a +:+ "." +:+ b) "." = Z.of_nat (String.length a)).
  { unfold lastIndexOf. rewrite lastIndexOf_from_app.
    change ("." +:+ b) with (String "."%char b). cbn [lastIndexOf_from].
    rewrite Ascii.eqb_refl. rewrite lastIndexOf_from_absent by exact Hb. lia. }
  rewrite Hlast. unfold substring. rewrite length_append.
  set (la := String.length a). set (lb := String.length ("." +:+ b)).
  replace (Z.min (Z.max 0 0) (Z.of_nat (la + lb))) with 0%Z by lia.
  replace (Z.min (Z.max (Z.of_nat la) 0) (Z.of_nat (la + lb))) with (Z.of_nat la) by lia.
  replace (Z.min 0 (Z.of_nat la)) with 0%Z by lia.
  replace (Z.max 0 (Z.of_nat la) - 0)%Z with (Z.of_nat la) by lia.
  cbn [Z.to_nat]. rewrite Nat2Z.id. unfold la. now rewrite substring_prefix.
Qed.

End Versions.

(** ** The adb binding: applications *)

Section Applications.
Import DabDevice Apps.
Context `{Runtime} `{Adb}.
Variable adb_getPackages : adb -> completion (list string) * adb.

Lemma first_installed_some packageArr appId l i lg :
  first_installed packageArr appId l = (Some i, lg) ->
  i ∈ l /\ installed packageArr i = true.
Proof.
  revert lg. induction l as [|x l IH]; intros lg; cbn; [discriminate|].
  destruct (installed packageArr x) eqn:Ex.
  - intros [= <- _]. split; [left | exact Ex].
  - destruct (first_installed packageArr appId l) as [r lg0] eqn:El.
    intros [= -> _]. destruct (IH lg0 eq_refl) as [Hin Hi]. split; [now right | exact Hi].
Qed.

Lemma first_installed_none packageArr appId l lg :
  first_installed packageArr appId l = (None, lg) ->
  forall i, i ∈ l -> installed packageArr i = false.
Proof.
  revert lg. induction l as [|x l IH]; intros lg; cbn.
  - intros _ i Hi. inversion Hi.
  - destruct (installed packageArr x) eqn:Ex; [discriminate|].
    destruct (first_installed packageArr appId l) as [r lg0] eqn:El.
    intros [= -> _] i Hi. apply elem_of_cons in Hi as [->|Hi]; [exact Ex | eauto].
Qed.

(** One step of the outer loop over a configuration that allows
    mutations, on the entry alone. *)
Lemma scan_cons packageArr appId c rest :
  exists c' fnd lg0,
    scan None packageArr ((appId, c) :: rest)
    = ((appId, c') :: (scan None packageArr rest).1.1.1,
       fnd ++ (scan None packageArr rest).1.1.2,
       lg0 ++ (scan None packageArr rest).1.2,
       (scan None packageArr rest).2)
    /\ ((c' = c /\ fnd = [] /\
         match c with
         | Impl i => installed packageArr i = false
         | Candidates l => forall i, i ∈ l -> installed packageArr i = false
         end)
        \/ (exists i, c' = Impl i /\ fnd = [(appId, i)] /\ installed packageArr i = true /\
              match c with
              | Impl i0 => i0 = i
              | Candidates l => i ∈ l
              end)).
Proof.
  cbn [scan]. destruct (scan None packageArr rest) as [[[entries' found] lg] t].
  cbn [fst snd]. destruct c as [i|l].
  - destruct (installed packageArr i) eqn:Ei.
    + eexists _, [(appId, i)], _. split; [reflexivity|]. right. eauto.
    + eexists _, [], _. split; [reflexivity|]. left. eauto.
  - destruct (first_installed packageArr appId l) as [[i|] lg0] eqn:El.
    + apply first_installed_some in El as [Hin Hi].
      eexists _, [(appId, i)], _. split; [reflexivity|]. right. eauto.
    + eexists _, [], _. split; [reflexivity|]. left.
      split; [reflexivity|]. split; [reflexivity|]. eapply first_installed_none, El.
Qed.

Lemma scan_mutable packageArr entries : (scan None packageArr entries).2 = None.
Proof.
  induction entries as [|[appId c] rest IH]; [reflexivity|].
  destruct (scan_cons packageArr appId c rest) as (c' & fnd & lg0 & -> & _). exact IH.
Qed.

Lemma scan_keys packageArr entries :
  (scan None packageArr entries).1.1.1.*1 = entries.*1.
Proof.
  induction entries as [|[appId c] rest IH]; [reflexivity|].
  destruct (scan_cons packageArr appId c rest) as (c' & fnd & lg0 & -> & _).
  cbn. now rewrite IH.
Qed.

Lemma scan_found packageArr entries appId i :
  (appId, i) ∈ (scan None packageArr entries).1.1.2
  <-> (appId, Impl i) ∈ (scan None packageArr entries).1.1.1
      /\ installed packageArr i = true.
Proof.
  induction entries as [|[k c] rest IH].
  - cbn. split; [intros Hin; inversion Hin | intros [Hin _]; inversion Hin].
  - destruct (scan_cons packageArr k c rest) as (c' & fnd & lg0 & -> & Hc).
    cbn [fst snd]. rewrite elem_of_app, elem_of_cons, IH.
    destruct Hc as [(-> & -> & Hno)|(i0 & -> & -> & Hi0 & _)].
    + split.
      * intros [Hin|[Hin Hi]]; [inversion Hin | auto].
      * intros [[[= -> <-]|Hin] Hi]; [cbn in Hno; congruence | auto].
    + rewrite list_elem_of_singleton. split.
      * intros [[= -> ->]|[Hin Hi]]; auto.
      * intros [[[= -> ->]|Hin] Hi]; auto.
Qed.

Lemma scan_origin packageArr entries appId c :
  (appId, c) ∈ (scan None packageArr entries).1.1.1 ->
  (appId, c) ∈ entries
  \/ exists l i, (appId, Candidates l) ∈ entries /\ c = Impl i /\ i ∈ l
                 /\ installed packageArr i = true.
Proof.
  induction entries as [|[k c0] rest IH].
  - cbn. intros Hin. inversion Hin.
  - destruct (scan_cons packageArr k c0 rest) as (c' & fnd & lg0 & -> & Hc).
    cbn [fst snd]. rewrite elem_of_cons. intros [[= -> ->]|Hin].
    + destruct Hc as [(-> & _)|(i & -> & _ & Hi & Horigin)]; [left; left|].
      destruct c0 as [i0|l]; [subst i0; left; left|].
      right. exists l, i. split; [left|]. auto.
    + destruct (IH Hin) as [Hold|(l & i & Hl & Hrest)]; [left; now right|].
      right. exists l, i. split; [now right | exact Hrest].
Qed.

Lemma scan_resolves packageArr entries appId l i :
  (appId, Candidates l) ∈ entries -> i ∈ l -> installed packageArr i = true ->
  exists i', i' ∈ l /\ installed packageArr i' = true
             /\ (appId, Impl i') ∈ (scan None packageArr entries).1.1.1.
Proof.
  intros Hin Hi Hinst. induction entries as [|[k c0] rest IH]; [inversion Hin|].
  destruct (scan_cons packageArr k c0 rest) as (c' & fnd & lg0 & -> & Hc).
  cbn [fst snd]. apply elem_of_cons in Hin as [[= <- <-]|Hin].
  - destruct Hc as [(_ & _ & Hno)|(i' & -> & _ & Hi' & Hl)].
    + rewrite (Hno i Hi) in Hinst. discriminate.
    + exists i'. split; [exact Hl|]. split; [exact Hi' | left].
  - destruct (IH Hin) as (i' & ? & ? & ?). exists i'. split; [done|]. split; [done | now right].
Qed.

Lemma scan_again packageArr entries :
  (scan None packageArr (scan None packageArr entries).1.1.1).1.1
  = (scan None packageArr entries).1.1.
Proof.
  induction entries as [|[k c] rest IH]; [reflexivity|].
  destruct (scan_cons packageArr k c rest) as (c' & fnd & lg0 & -> & Hc).
  cbn [fst snd].
  destruct (scan_cons packageArr k c' (scan None packageArr rest).1.1.1)
    as (c'' & fnd' & lg1 & -> & Hc').
  cbn [fst snd]. rewrite (f_equal fst IH), (f_equal snd IH).
  destruct Hc as [(-> & -> & Hno)|(i & -> & -> & Hi & _)].
  - destruct Hc' as [(-> & -> & _)|(i & -> & -> & Hi & Horigin)]; [reflexivity|].
    destruct c as [i0|l]; cbn in Hno, Horigin.
    + subst i0. congruence.
    + rewrite (Hno i Horigin) in Hi. discriminate.
  - destruct Hc' as [(-> & -> & Hno)|(i' & -> & -> & _ & Heq)]; cbn in *.
    + congruence.
    + now subst i'.
Qed.

Lemma scan_order packageArr entries :
  (scan None packageArr entries).1.1.2.*1 `sublist_of` entries.*1.
Proof.
  induction entries as [|[k c] rest IH]; [reflexivity|].
  destruct (scan_cons packageArr k c rest) as (c' & fnd & lg0 & -> & Hc).
  cbn [fst snd]. rewrite fmap_app.
  destruct Hc as [(_ & -> & _)|(i & _ & -> & _)]; cbn.
  - now apply sublist_cons.
  - now apply sublist_skip.
Qed.

(** An immutable configuration is left as it is. *)
Lemma scan_frozen_map e packageArr entries :
  (scan (Some e) packageArr entries).1.1.1 = entries.
Proof.
  induction entries as [|[k c] rest IH]; [reflexivity|]. cbn [scan].
  destruct (scan (Some e) packageArr rest) as [[[entries' found] lg] t]. cbn [fst] in IH.
  destruct c as [i|l].
  - destruct (installed packageArr i); cbn; now rewrite IH.
  - destruct (first_installed packageArr k l) as [[i|] lg0]; cbn; [reflexivity|].
    now rewrite IH.
Qed.

(** It makes the loop throw as soon as a candidate is found installed. *)
Lemma scan_frozen_throws e packageArr entries appId l i :
  (appId, Candidates l) ∈ entries -> i ∈ l -> installed packageArr i = true ->
  (scan (Some e) packageArr entries).2 = Some e.
Proof.
  intros Hin Hi Hinst. induction entries as [|[k c] rest IH]; [inversion Hin|].
  cbn [scan]. apply elem_of_cons in Hin as [[= <- <-]|Hin].
  - destruct (first_installed packageArr appId l) as [[i'|] lg0] eqn:El; [reflexivity|].
    rewrite (first_installed_none _ _ _ _ El i Hi) in Hinst. discriminate.
  - specialize (IH Hin).
    destruct (scan (Some e) packageArr rest) as [[[entries' found] lg] t]. cbn [snd] in IH.
    destruct c as [i0|l0].
    + now destruct (installed packageArr i0).
    + now destruct (first_installed packageArr k l0) as [[i'|] lg0].
Qed.

(** Without such a candidate it does what the loop does on a mutable
    configuration. *)
Lemma scan_frozen_quiet e packageArr entries :
  (forall appId l i, (appId, Candidates l) ∈ entries -> i ∈ l ->
                     installed packageArr i = false) ->
  scan (Some e) packageArr entries = scan None packageArr entries.
Proof.
  induction entries as [|[k c] rest IH]; intros Hnone; [reflexivity|]. cbn [scan].
  rewrite IH by (intros appId l i Hin; apply (Hnone appId l i); now right).
  destruct c as [i0|l0]; [reflexivity|].
  destruct (first_installed packageArr k l0) as [[i'|] lg0] eqn:El; [|reflexivity].
  apply first_installed_some in El as [Hin Hi].
  rewrite (Hnone k l0 i' ltac:(left) Hin) in Hi. discriminate.
Qed.


Lemma default_envelope : dabResponse_default = Normal [("status", JNum 200)].
Proof. reflexivity. Qed.

Lemma dabResponse_500 (e : string) :
  e ≠ "" -> dabResponse 500 (Some e) = Normal [("status", JNum 500); ("error", JStr e)].
Proof.
  intros He. unfold dabResponse.
  replace (Math_floor (500 / 100)) with 5%Z by reflexivity. cbn.
  destruct (String.eqb_spec e ""); [contradiction | reflexivity].
Qed.

(** What [listApps] answers on a configuration that allows mutations, or
    that has no candidate to resolve. *)
Lemma listApps_mutable frozen entries d packageArr d' :
  adb_getPackages d = (Normal packageArr, d') ->
  scan frozen packageArr entries = scan None packageArr entries ->
  listApps adb_getPackages frozen entries d
  = {| l_response :=
         Normal [("status", JNum 200);
                 ("applications",
                  JArr ((fun ai => application ai.1 ai.2)
                          <$> (scan None packageArr entries).1.1.2))];
       l_device := d';
       l_appMap := (scan None packageArr entries).1.1.1;
       l_log := (scan None packageArr entries).1.2 |}.
Proof.
  intros Hpk Hscan. unfold listApps. rewrite Hpk, Hscan.
  pose proof (scan_mutable packageArr entries) as Hquiet.
  destruct (scan None packageArr entries) as [[[entries' found] lg] t].
  cbn [snd] in Hquiet. subst t. now rewrite default_envelope.
Qed.

(** X14. [listApps], when adb reports the installed packages.  On a
    configuration that allows mutations, or in which no list of
    candidates has an installed member: the response has status 200 and
    lists, in the order of the configuration, exactly the application
    ids whose entry is, once the call has returned, a single
    implementation with an installed package; every id keeps its place;
    an entry is left as it was or, when it was a list of candidates,
    replaced by one of them whose package is installed.  On an immutable
    configuration in which some list of candidates has an installed
    member, the assignment into the configuration throws: the response
    is the 500 envelope with the text of that error and the
    configuration is as it was. *)
Theorem listApps_lists_installed frozen entries d packageArr d' :
  adb_getPackages d = (Normal packageArr, d') ->
  let r := listApps adb_getPackages frozen entries d in
  let resolvable :=
    exists appId l i,
      (appId, Candidates l) ∈ entries /\ i ∈ l /\ installed packageArr i = true in
  l_device r = d'
  /\ (l_appMap r).*1 = entries.*1
  /\ (frozen = None \/ ~ resolvable ->
      exists found,
        l_response r
        = Normal [("status", JNum 200);
                  ("applications", JArr ((fun ai => application ai.1 ai.2) <$> found))]
        /\ found.*1 `sublist_of` entries.*1
        /\ (forall appId i,
              (appId, i) ∈ found
              <-> (appId, Impl i) ∈ l_appMap r /\ installed packageArr i = true)
        /\ (forall appId c,
              (appId, c) ∈ l_appMap r ->
              (appId, c) ∈ entries
              \/ exists l i, (appId, Candidates l) ∈ entries /\ c = Impl i /\ i ∈ l
                             /\ installed packageArr i = true))
  /\ (forall e,
        frozen = Some e -> resolvable -> message_of e ≠ "" ->
        l_response r = Normal [("status", JNum 500); ("error", JStr (message_of e))]
        /\ l_appMap r = entries).
Proof.
  intros Hpk r resolvable.
  assert (Hquiet : frozen = None \/ ~ resolvable ->
                   scan frozen packageArr entries = scan None packageArr entries).
  { intros [->|Hno]; [reflexivity|]. destruct frozen as [e|]; [|reflexivity].
    apply scan_frozen_quiet. intros appId l i Hin Hi.
    destruct (installed packageArr i) eqn:Ei; [|reflexivity].
    exfalso. apply Hno. exists appId, l, i. auto. }
  split; [|split; [|split]].
  - unfold r, listApps. rewrite Hpk.
    now destruct (scan frozen packageArr entries) as [[[entries' found] lg] [e|]].
  - unfold r, listApps. rewrite Hpk. destruct frozen as [e|].
    + pose proof (scan_frozen_map e packageArr entries) as Hmap.
      destruct (scan (Some e) packageArr entries) as [[[entries' found] lg] [e'|]];
        cbn [fst l_appMap] in *; now subst entries'.
    + pose proof (scan_keys packageArr entries) as Hk.
      destruct (scan None packageArr entries) as [[[entries' found] lg] [e'|]];
        cbn [fst l_appMap] in *; exact Hk.
  - intros Hcase. unfold r. rewrite (listApps_mutable _ _ _ _ _ Hpk (Hquiet Hcase)).
    cbn [l_response l_appMap]. exists (scan None packageArr entries).1.1.2.
    split; [reflexivity|]. split; [apply scan_order|].
    split; [apply scan_found | apply scan_origin].
  - intros e -> (appId & l & i & Hin & Hi & Hinst) He.
    unfold r, listApps. rewrite Hpk.
    pose proof (scan_frozen_map e packageArr entries) as Hmap.
    pose proof (scan_frozen_throws e packageArr entries appId l i Hin Hi Hinst) as Ht.
    destruct (scan (Some e) packageArr entries) as [[[entries' found] lg] t].
    cbn [fst snd] in *. subst t entries'. cbn [l_response l_appMap].
    split; [now apply dabResponse_500 | reflexivity].
Qed.

(** X15. A second [listApps] finds the configuration as the first left
    it: with the same packages installed it changes nothing more and
    gives the same response. *)
Theorem listApps_twice frozen entries d packageArr d' d1 d1' :
  adb_getPackages d = (Normal packageArr, d') ->
  adb_getPackages d1 = (Normal packageArr, d1') ->
  let r := listApps adb_getPackages frozen entries d in
  let r' := listApps adb_getPackages frozen (l_appMap r) d1 in
  l_appMap r' = l_appMap r /\ l_response r' = l_response r.
Proof.
  intros Hpk Hpk1 r r'. destruct frozen as [e|].
  - assert (Hmap : l_appMap r = entries).
    { unfold r, listApps. rewrite Hpk.
      pose proof (scan_frozen_map e packageArr entries) as Hmap.
      now destruct (scan (Some e) packageArr entries) as [[[entries' found] lg] [e'|]]. }
    unfold r'. rewrite Hmap. unfold r, listApps. rewrite Hpk, Hpk1.
    pose proof (scan_frozen_map e packageArr entries) as Hsame.
    destruct (scan (Some e) packageArr entries) as [[[entries' found] lg] [e'|]];
      cbn [fst l_appMap l_response] in *; now subst entries'.
  - unfold r', r.
    rewrite (listApps_mutable None entries d packageArr d' Hpk eq_refl).
    cbn [l_appMap l_response].
    rewrite (listApps_mutable None _ d1 packageArr d1' Hpk1 eq_refl).
    cbn [l_appMap l_response].
    pose proof (scan_again packageArr entries) as Ha.
    split; [exact (f_equal fst Ha) | now rewrite (f_equal snd Ha)].
Qed.

(** X16. An application configured with a list of candidate
    implementations is unknown to [launchApp], [exitApp] and
    [getAppState] as long as [listApps] has not run: they answer 404 and
    send adb nothing.  Once [listApps] has found one of the candidates
    installed, on a configuration that allows mutations, the entry has
    a package that is installed, and [getAppState] asks adb for the
    status of that package and answers with the state adb reports.  On
    an immutable configuration [listApps] changes nothing, and the three
    keep answering 404. *)
Theorem candidates_unknown_until_listed frozen entries d packageArr d' appId l i
    (o : object) d0 :
  adb_getPackages d = (Normal packageArr, d') ->
  NoDup entries.*1 ->
  (appId, Candidates l) ∈ entries ->
  i ∈ l -> installed packageArr i = true -> "" ∉ packageArr ->
  field "appId" o = Some (JStr appId) -> toLowerCase appId = appId ->
  let data := JObj o in
  let before : gmap string app_config := list_to_map entries in
  let after : gmap string app_config :=
    list_to_map (l_appMap (listApps adb_getPackages frozen entries d)) in
  let unknown :=
    Normal [("status", JNum 404);
            ("error", JStr ("Couldn't find data for app " +:+ appId +:+ " in config file"))] in
  let unknown_to (m : gmap string app_config) :=
    (response (launchApp m data d0) = unknown /\ device_after (launchApp m data d0) = d0)
    /\ (response (exitApp m data d0) = unknown /\ device_after (exitApp m data d0) = d0)
    /\ (response (getAppState m data d0) = unknown
        /\ device_after (getAppState m data d0) = d0) in
  unknown_to before
  /\ (frozen = None ->
      exists p,
        p ∈ packageArr /\ config_package (after !! appId) = Some p
        /\ device_after (getAppState after data d0) = (adb_status p d0).2
        /\ (forall s, (adb_status p d0).1 = Normal (Some s) ->
              response (getAppState after data d0)
              = Normal [("status", JNum 200); ("state", adbAppStatusToDabAppState s)]))
  /\ (frozen ≠ None -> unknown_to after).
Proof.
  intros Hpk Hnodup Hin Hi Hinst Hempty Hdata Hlower data before after unknown unknown_to.
  assert (Hbefore : before !! appId = Some (Candidates l)).
  { now apply elem_of_list_to_map_1. }
  assert (Hunknown : forall m : gmap string app_config,
            m !! appId = Some (Candidates l) -> unknown_to m).
  { intros m Hm. unfold unknown_to. split; [|split].
    - unfold launchApp, data. cbn [prop own]. rewrite Hdata, Hlower, Hm. cbn. auto.
    - unfold exitApp, data. cbn [prop own]. rewrite Hdata, Hlower, Hm. cbn. auto.
    - unfold getAppState, data. cbn [prop own]. rewrite Hdata, Hlower, Hm. cbn. auto. }
  split; [now apply Hunknown|]. split.
  - intros ->.
    destruct (scan_resolves packageArr entries appId l i Hin Hi Hinst) as (i' & _ & Hi' & Hin').
    assert (Hafter : after !! appId = Some (Impl i')).
    { unfold after. rewrite (listApps_mutable None entries d packageArr d' Hpk eq_refl).
      cbn [l_appMap].
      apply elem_of_list_to_map_1; [now rewrite scan_keys | exact Hin']. }
    unfold installed in Hi'. destruct (package i') as [p|] eqn:Ep; [|discriminate].
    apply bool_decide_eq_true in Hi'.
    assert (Hp : p ≠ "") by (intros ->; contradiction).
    exists p. split; [exact Hi'|]. split; [now rewrite Hafter|].
    unfold getAppState, data. cbn [prop own].
    rewrite Hdata, Hlower, Hafter. cbn [config_package]. rewrite Ep.
    assert (Ht : truthy (JStr <$> Some p) = true).
    { cbn. now destruct (String.eqb_spec p "") as [->|_]. }
    rewrite Ht. cbn [negb]. change (default "" (Some p)) with p.
    destruct (adb_status p d0) as [[[s|]|e] d1]; cbn [fst snd device_after response];
      (split; [reflexivity|]); intros s0 [=]. subst s0. reflexivity.
  - intros Hfrozen. destruct frozen as [e|]; [|contradiction].
    apply Hunknown. unfold after, listApps. rewrite Hpk.
    pose proof (scan_frozen_map e packageArr entries) as Hmap.
    destruct (scan (Some e) packageArr entries) as [[[entries' found] lg] [e'|]];
      cbn [fst l_appMap] in *; subst entries'; exact Hbefore.
Qed.

End Applications.

(** ** The adb binding: what the handlers answer *)

Section Answers.
Import DabDevice Apps.
Context `{Runtime} `{Adb}.
Variable adb_getPackages : adb -> completion (list string) * adb.
Variable adb_sendKey : string -> adb -> completion unit * adb.
Variable adb_getDeviceUptimeSeconds : adb -> completion json * adb.
Variable frozen : option exn.









End Answers.

(** ** Ending the dispatcher *)

Section Teardown.
Import Client Dispatcher.
Context `{Runtime}.

Lemma removeListener_spec event l xs :
  NoDup xs ->
  NoDup (removeListener event l xs)
  /\ removeListener event l xs `sublist_of` xs
  /\ (forall ec, ec ∈ removeListener event l xs <-> ec ∈ xs /\ ec ≠ (event, l)).
Proof.
  induction xs as [|[e c] xs IH]; intros Hnd.
  - cbn. split; [constructor|]. split; [constructor|]. intros ec. rewrite elem_of_nil. tauto.
  - apply NoDup_cons in Hnd as [Hnotin Hnd]. destruct (IH Hnd) as (IH1 & IH2 & IH3).
    cbn [removeListener].
    destruct (String.eqb e event && listener_eqb c l) eqn:E.
    + apply andb_true_iff in E as [Ee El]. apply String.eqb_eq in Ee. subst e.
      assert (c = l) as ->.
      { destruct c, l; cbn in El; try discriminate; apply Nat.eqb_eq in El; now subst. }
      split; [exact Hnd|]. split; [now apply sublist_cons|].
      intros ec. rewrite elem_of_cons. split.
      * intros Hin. split; [now right|]. intros ->. contradiction.
      * intros [[->|Hin] Hne]; [contradiction | exact Hin].
    + assert (Hne : (e, c) ≠ (event, l)).
      { intros [= -> ->]. now rewrite String.eqb_refl, listener_eqb_refl in E. }
      split; [|split].
      * apply NoDup_cons. split; [|exact IH1]. rewrite IH3. tauto.
      * now apply sublist_skip.
      * intros ec. rewrite !elem_of_cons, IH3. split.
        -- intros [->|[Hin Hec]]; auto.
        -- intros [[->|Hin] Hec]; auto.
Qed.

Lemma transport_end_subscription topic l st :
  transport (end_subscription topic l st) = transport st
  \/ transport (end_subscription topic l st) = transport st ++ [ClientUnsubscribe topic].
Proof. unfold end_subscription. case_match; [right | left]; reflexivity. Qed.

Lemma requests_end_subscription topic l st :
  requests (end_subscription topic l st) = requests st.
Proof. unfold end_subscription. now case_match. Qed.

(** X18. [end()] on a client whose emitter holds every listener once:
    the listeners that [handle] registered are removed and all others
    stay, in their order; the requests under way are untouched; and the
    transport is asked nothing but to unsubscribe, at most once for each
    handler and in the order of the handlers. *)
Theorem end_removes_handlers sv :
  NoDup (emitter (sv_client sv)) ->
  let registered :=
    (fun tc => (convertPattern tc.1, Callback tc.2)) <$> handlerSubscriptions sv in
  let ended := end_handlers sv in
  emitter ended `sublist_of` emitter (sv_client sv)
  /\ (forall ec, ec ∈ emitter ended <-> ec ∈ emitter (sv_client sv) /\ ec ∉ registered)
  /\ requests ended = requests (sv_client sv)
  /\ exists topics,
       topics `sublist_of` (handlerSubscriptions sv).*1
       /\ transport ended = transport (sv_client sv) ++ (ClientUnsubscribe <$> topics).
Proof.
  destruct sv as [st subs]. unfold end_handlers. cbn [sv_client handlerSubscriptions].
  cbv zeta. revert st. induction subs as [|[topic c] subs IH]; intros st Hnd.
  - cbn. split; [reflexivity|]. split.
    + intros ec. rewrite elem_of_nil. tauto.
    + split; [reflexivity|]. exists []. split; [reflexivity|]. cbn. now rewrite app_nil_r.
  - set (st1 := end_subscription topic (Callback c) st).
    destruct (removeListener_spec (convertPattern topic) (Callback c) (emitter st) Hnd)
      as (Hnd1 & Hsub1 & Hin1).
    rewrite <- (emitter_end_subscription topic (Callback c) st) in Hnd1, Hsub1, Hin1.
    fold st1 in Hnd1, Hsub1, Hin1.
    destruct (IH st1 Hnd1) as (Hsub & Hin & Hreq & topics & Htopics & Htrans).
    cbn [fold_left fst snd]. fold st1.
    split; [now transitivity (emitter st1)|]. split; [|split].
    + intros ec. rewrite Hin, Hin1. rewrite fmap_cons, not_elem_of_cons. cbn [fst snd]. tauto.
    + rewrite Hreq. apply requests_end_subscription.
    + destruct (transport_end_subscription topic (Callback c) st) as [Ht|Ht];
        fold st1 in Ht; rewrite Htrans, Ht.
      * exists topics. split; [|reflexivity]. rewrite fmap_cons. now apply sublist_cons.
      * exists (topic :: topics). split; [rewrite fmap_cons; now apply sublist_skip|].
        rewrite fmap_cons. now rewrite <- app_assoc.
Qed.

End Teardown.

(** ** The demonstration client *)

Section Rebooting.
Import Demo.

Lemma wait_for_reboot_from_spec checks fuel k :
  (forall j, j < k -> checks j = Unhealthy) ->
  let made := snd (wait_for_reboot_from checks fuel k) in
  k <= made <= k + fuel
  /\ (forall j, j < made - 1 -> checks j = Unhealthy)
  /\ match fst (wait_for_reboot_from checks fuel k) with
     | Normal _ => k < made /\ checks (made - 1) = Healthy
     | Throw e =>
         (k < made /\ checks (made - 1) = Unanswered e)
         \/ (made = k + fuel /\ (forall j, j < made -> checks j = Unhealthy)
             /\ e = Error "Could not reestablish connection with device after restart")
     end.
Proof.
  revert k. induction fuel as [|fuel IH]; intros k Hk; cbn [wait_for_reboot_from].
  - cbn [fst snd]. split; [lia|]. split; [intros j Hj; apply Hk; lia|].
    right. split; [lia|]. split; [|reflexivity]. intros j Hj. apply Hk. lia.
  - destruct (checks k) eqn:Ek.
    + cbn [fst snd]. replace (S k - 1) with k by lia.
      split; [lia|]. split; [exact Hk|]. split; [lia | exact Ek].
    + assert (Hk' : forall j, j < S k -> checks j = Unhealthy).
      { intros j Hj. destruct (decide (j = k)) as [->|Hne]; [exact Ek | apply Hk; lia]. }
      destruct (IH (S k) Hk') as (Hmade & Hbefore & Hend).
      split; [lia|]. split; [exact Hbefore|].
      destruct (fst (wait_for_reboot_from checks fuel (S k))) as [u|e].
      * destruct Hend as [? ?]. split; [lia | done].
      * destruct Hend as [[? ?]|(Hall & Hrest)]; [left; split; [lia | done]|].
        right. split; [lia | exact Hrest].
    + cbn [fst snd]. replace (S k - 1) with k by lia.
      split; [lia|]. split; [exact Hk|]. left. split; [lia | exact Ek].
Qed.

Lemma wait_for_reboot_from_reads checks checks' fuel k :
  (forall j, k <= j < k + fuel -> checks j = checks' j) ->
  wait_for_reboot_from checks fuel k = wait_for_reboot_from checks' fuel k.
Proof.
  revert k. induction fuel as [|fuel IH]; intros k Hsame; cbn [wait_for_reboot_from];
    [reflexivity|].
  rewrite <- (Hsame k) by lia. destruct (checks k); try reflexivity.
  apply IH. intros j Hj. apply Hsame. lia.
Qed.

(** X19. The wait for the reboot in the demonstration makes at least one
    and at most 20 health checks, however it ends, and what it does
    depends on the first 20 checks only; all checks before the last one
    made were answered unhealthy.  When it ends normally, the last check
    made was answered healthy.  When it throws, either the last check
    made was rejected and the error is that rejection, or 20 checks were
    made, all answered unhealthy, and the error is its own. *)
Theorem wait_for_reboot_makes_at_most_20_checks checks :
  let made := snd (wait_for_reboot checks) in
  1 <= made <= 20
  /\ (forall checks', (forall j, j < 20 -> checks j = checks' j) ->
        wait_for_reboot checks' = wait_for_reboot checks)
  /\ (forall j, j < made - 1 -> checks j = Unhealthy)
  /\ match fst (wait_for_reboot checks) with
     | Normal _ => checks (made - 1) = Healthy
     | Throw e =>
         checks (made - 1) = Unanswered e
         \/ (made = 20 /\ checks 19 = Unhealthy
             /\ e = Error "Could not reestablish connection with device after restart")
     end.
Proof.
  intros made.
  destruct (wait_for_reboot_from_spec checks 20 0 ltac:(intros j Hj; lia))
    as (Hmade & Hbefore & Hend).
  fold (wait_for_reboot checks) in Hmade, Hbefore, Hend. fold made in Hmade, Hbefore, Hend.
  assert (Hone : 1 <= made).
  { destruct (fst (wait_for_reboot checks)) as [u|e]; [lia|].
    destruct Hend as [[? _]|[-> _]]; lia. }
  split; [lia|]. split; [|split; [exact Hbefore|]].
  - intros checks' Hsame. unfold wait_for_reboot. symmetry.
    apply wait_for_reboot_from_reads. intros j Hj. apply Hsame. lia.
  - destruct (fst (wait_for_reboot checks)) as [u|e]; [apply Hend|].
    destruct Hend as [[_ ?]|(-> & Hall & ->)]; [now left|].
    right. split; [reflexivity|]. split; [apply Hall; lia | reflexivity].
Qed.

End Rebooting.

(** ** The key map *)

Section Keys.
Import Keymap.

(** X20. The key map of the adb binding: two DAB keys are sent as the
    same Android key code only when they are the same key or are both
    among [KEY_HOME], [KEY_EXIT] and [KEY_CUSTOM_HOME], which all stand
    for [KEYCODE_HOME]; the members of [AndroidKeyCode] have different
    numbers; and every member but [KEYCODE_DPAD_CENTER] is the code of
    some DAB key. *)
Theorem only_home_keys_share_a_code :
  (forall a b,
     dabKeysToAndroidKeyCodes a = dabKeysToAndroidKeyCodes b
     <-> a = b \/ (a ∈ [KEY_HOME; KEY_EXIT; KEY_CUSTOM_HOME]
                   /\ b ∈ [KEY_HOME; KEY_EXIT; KEY_CUSTOM_HOME]))
  /\ (forall c c', value c = value c' -> c = c')
  /\ (forall c, (exists k, dabKeysToAndroidKeyCodes k = c) <-> c ≠ KEYCODE_DPAD_CENTER).
Proof.
  split; [|split].
  - intros a b. split.
    + destruct a, b; cbn; intros Heq;
        first [ left; reflexivity
              | discriminate Heq
              | right; split;
                repeat constructor ].
    + intros [->|[Ha Hb]]; [reflexivity|].
      rewrite !elem_of_cons, elem_of_nil in Ha, Hb.
      destruct Ha as [->|[->|[->|[]]]], Hb as [->|[->|[->|[]]]]; reflexivity.
  - intros c c'. destruct c, c'; cbn; intros Heq;
      first [reflexivity | discriminate Heq].
  - intros c. split.
    + intros [k <-]. destruct k; discriminate.
    + intros Hc. destruct c; try contradiction;
        first [ now exists KEY_POWER | now exists KEY_HOME | now exists KEY_VOLUME_UP
              | now exists KEY_VOLUME_DOWN | now exists KEY_MUTE | now exists KEY_CHANNEL_UP
              | now exists KEY_CHANNEL_DOWN | now exists KEY_MENU | now exists KEY_INFO
              | now exists KEY_GUIDE | now exists KEY_CAPTIONS | now exists KEY_UP
              | now exists KEY_PAGE_UP | now exists KEY_PAGE_DOWN | now exists KEY_RIGHT
              | now exists KEY_DOWN | now exists KEY_LEFT | now exists KEY_ENTER
              | now exists KEY_BACK | now exists KEY_PLAY | now exists KEY_PLAY_PAUSE
              | now exists KEY_PAUSE | now exists KEY_RECORD | now exists KEY_STOP
              | now exists KEY_REWIND | now exists KEY_FAST_FORWARD
              | now exists KEY_SKIP_REWIND | now exists KEY_SKIP_FAST_FORWARD
              | now exists KEY_0 | now exists KEY_1 | now exists KEY_2 | now exists KEY_3
              | now exists KEY_4 | now exists KEY_5 | now exists KEY_6 | now exists KEY_7
              | now exists KEY_8 | now exists KEY_9 | now exists KEY_RED
              | now exists KEY_GREEN | now exists KEY_YELLOW | now exists KEY_BLUE
              | now exists KEY_CUSTOM_STAR | now exists KEY_CUSTOM_POUND
              | now exists KEY_CUSTOM_SEARCH | now exists KEY_CUSTOM_MOVE_HOME
              | now exists KEY_CUSTOM_MOVE_END | now exists KEY_CUSTOM_MEDIA_NEXT
              | now exists KEY_CUSTOM_MEDIA_PREVIOUS | now exists KEY_CUSTOM_WAKEUP ].
Qed.

End Keys.

(** * Closed instances *)

Section Instances.
Import Client DabDeviceBase Example.

Lemma response_decided_by_status_gt_299_witness :
  let st := request "applications/list" (JObj []) [] "7f1c" new_client in
  let o := [("status", JNum 100)] in
  (rq_promise <$> requests (fst (on_response 0 (JObj o) st)) !! 0) = Some (Fulfilled (JObj o)).
Proof.
  intros st o.
  refine (proj1 (proj2 (proj2 (response_decided_by_status_gt_299 0 _ o st _ _))) 100%Q _ _);
    reflexivity.
Defined.



Lemma handleMessage_unparsable_or_empty_witness :
  let st := subscribe "dab/messages" (Callback 0)
              (subscribe "dab/+" (Callback 1) new_client) in
  let failure := JObj [("status", JNum 500); ("error", JStr "failed to parse msg");
                       ("msg", JStr "not json"); ("packet", JObj [])] in
  received (fst (handleMessage "dab/messages" "not json" (JObj []) st)) =
    [(0, failure, JObj []); (1, failure, JObj [])].
Proof.
  intros st failure.
  exact (proj1 (proj2 (proj2 (handleMessage_unparsable_or_empty
                                "dab/messages" "not json" (JObj []) st
                                (or_introl eq_refl))))).
Defined.

(** C3, as the design document has it, fails on an empty payload: the
    callback is handed [{}], which has no [status] and is not the
    parse-failure payload (whose raw text sits under [msg], not [raw]). *)
Lemma empty_payload_is_delivered_as_empty_object :
  let st := subscribe "dab/messages" (Callback 0) new_client in
  received (fst (handleMessage "dab/messages" "" (JObj []) st)) = [(0, JObj [], JObj [])]
  /\ JObj [] ≠ parse_failure "" (JObj [])
  /\ prop (parse_failure "x" (JObj [])) "raw" = Normal None.
Proof. repeat split. discriminate. Qed.

(** A response whose payload is the JSON text [null] makes the listener
    throw at [msg.status], after it cleared the timer: the promise stays
    pending and no timer is left to reject it. *)
Lemma null_response_leaves_promise_pending :
  let st := subscribe_granted 0
              (request "applications/list" (JObj []) [] "7f1c" new_client) in
  let after := handleMessage "_response/applications/list/7f1c" "null" (JObj []) st in
  snd after = Some (Error "TypeError: Cannot read properties of null")
  /\ rq_promise <$> requests (fst after) !! 0 = Some Pending
  /\ rq_timer <$> requests (fst after) !! 0 = Some false
  /\ timer_fired 0 (fst after) = fst after.
Proof. repeat split. Qed.

(** C1 at the input that breaks it: the publish of a request fails once
    its subscription was granted.  The promise is rejected with the
    transport's error and the subscription is torn down, but the timer is
    still armed; when it fires, the tear-down runs again and a second
    unsubscribe goes to the transport. *)
Theorem publish_failure_leaves_timer_armed :
  let st1 := request "applications/list" (JObj []) [] "7f1c" new_client in
  let st2 := subscribe_granted 0 st1 in
  let st3 := publish_failed 0 (Error "client disconnecting") st2 in
  let st4 := timer_fired 0 st3 in
  rq_promise <$> requests st3 !! 0 = Some (Rejected (ThrownError (Error "client disconnecting")))
  /\ emitter st3 = []
  /\ rq_timer <$> requests st3 !! 0 = Some true
  /\ transport st3 =
       [ClientSubscribe "_response/applications/list/7f1c";
        ClientPublish "applications/list/7f1c" (JObj []) DEFAULT_PUBLISH_OPTIONS;
        ClientUnsubscribe "_response/applications/list/7f1c"]
  /\ transport st4 = transport st3 ++ [ClientUnsubscribe "_response/applications/list/7f1c"]
  /\ rq_promise <$> requests st4 !! 0 = rq_promise <$> requests st3 !! 0.
Proof. repeat split. Qed.



(** C4 at the input that breaks it: a second start call for the device
    key enters while the first is suspended at [await cb()].  Both pass
    the guard, both return status 200, and two timers publish to the
    metrics topic while [this.telemetry.device] holds only the second; a
    stop call then clears that one and the first keeps publishing. *)
Theorem overlapping_starts_both_succeed :
  let topic := "dab/device-telemetry/metrics" in
  let data := [("frequency", JNum 1000)] in
  let s := run topic [CallStartDevice data counter; CallStartDevice data counter;
                      Continue 0; Continue 1; Continue 0; Continue 1] boot in
  let s' := run topic [CallStopDevice; Elapse 0] s in
  starts s = [Return (Normal [("status", JNum 200); ("frequency", JNum 1000)]);
              Return (Normal [("status", JNum 200); ("frequency", JNum 1000)])]
  /\ length (schedules topic (dev s)) = 2
  /\ telemetry (dev s) !! device_key = Some 1
  /\ stops s' = [Normal [("status", JNum 200)]]
  /\ telemetry (dev s') !! device_key = None
  /\ schedules topic (dev s') = [0]
  /\ published (dev s') = published (dev s) ++ [(topic, Sample (JNum 2))].
Proof. repeat split. Qed.

(** C5 at the input that breaks it: a start call for an application key.
    The producer is never invoked: what is handed to [publish], at once
    and at every period, is the producer function itself ([await cb]),
    where the device key's path publishes its result ([await cb()]). *)
Theorem app_telemetry_never_invokes_producer :
  let topic := "dab/device-telemetry/metrics" in
  let app := run topic
      [CallStartApp [("appId", JStr "youtube"); ("frequency", JNum 1000)] counter;
       Continue 0; Continue 0; Elapse 0; Elapse 0] boot in
  let device := run topic
      [CallStartDevice [("frequency", JNum 1000)] counter;
       Continue 0; Continue 0; Elapse 0; Elapse 0] boot in
  starts app = [Return (Normal [("status", JNum 200); ("frequency", JNum 1000)])]
  /\ produced (dev app) = 0
  /\ published (dev app) =
       [(topic +:+ "/youtube", FunctionObject); (topic +:+ "/youtube", FunctionObject);
        (topic +:+ "/youtube", FunctionObject)]
  /\ produced (dev device) = 3
  /\ published (dev device) =
       [(topic, Sample (JNum 0)); (topic, Sample (JNum 1)); (topic, Sample (JNum 2))].
Proof. repeat split. Qed.

(** C7 at the input that breaks it: a stop call for an application id
    that names a property every object inherits.  No session runs, yet
    the call returns status 200. *)
Theorem stop_of_inherited_name_succeeds :
  let data := [("appId", JStr "constructor")] in
  telemetry new_device !! "constructor" = None
  /\ snd (stopAppTelemetry data new_device) = Normal [("status", JNum 200)]
  /\ snd (startAppTelemetryImpl "dab/device-telemetry/metrics"
            [("appId", JStr "constructor"); ("frequency", JNum 1000)] counter new_device)
     = Normal [("status", JNum 400);
               ("error", JStr "App telemetry is already started for constructor, stop it first")].
Proof. repeat split. Qed.

Lemma lowercase_appId_gives_same_result_witness :
  DabDevice.launchApp appMap
    (JObj [("appId", JStr "YouTube"); ("parameters", JStr "watch?v=1")]) []
  = DabDevice.launchApp appMap
      (JObj [("appId", JStr "youtube"); ("parameters", JStr "watch?v=1")]) []
  /\ DabDevice.data_after
       (DabDevice.getAppState appMap (JObj [("appId", JStr "YouTube")]) [])
     = JObj [("appId", JStr "youtube")]
  /\ DabDevice.device_after
       (DabDevice.launchApp appMap (JObj [("appId", JStr "YouTube")]) [])
     = ["start"]
  /\ DabDevice.device_after
       (DabDevice.getAppState appMap (JObj [("appId", JStr "YouTube")]) [])
     = ["status com.google.android.youtube.tv"].
Proof.
  pose proof (lowercase_appId_gives_same_result appMap [("appId", JStr "YouTube")]
                "YouTube" [] eq_refl eq_refl) as Hthm.
  cbv zeta in Hthm. destruct Hthm as (_ & (_ & _ & Hleft) & _ & _ & _ & Hstart & Hstatus).
  split; [|split; [exact Hleft|split]].
  - exact (proj1 (proj1 (lowercase_appId_gives_same_result appMap
                           [("appId", JStr "YouTube"); ("parameters", JStr "watch?v=1")]
                           "YouTube" [] eq_refl eq_refl))).
  - exact (Hstart _ eq_refl eq_refl).
  - exact (proj1 (Hstatus "com.google.android.youtube.tv" eq_refl ltac:(discriminate))).
Defined.

Lemma settled_promise_is_final_witness :
  let topic := "_response/applications/list/7f1c" in
  let st := fst (handleMessage topic "{}" (JObj [])
                   (request "applications/list" (JObj []) [] "7f1c" new_client)) in
  outcome 0 (Client.run [TimerFires 0; PublishFails 0 (Error "client disconnecting");
                         Inbound topic "404" (JObj []); SubscriptionGranted 0] st)
  = Some (Fulfilled (JObj [])).
Proof.
  intros topic st.
  exact (settled_promise_is_final 0 (Fulfilled (JObj [])) _ st eq_refl ltac:(discriminate)).
Defined.

Lemma response_cancels_timer_witness :
  let after := fst (handleMessage "_response/applications/list/7f1c" "{}" (JObj [])
                      (request "applications/list" (JObj []) [] "7f1c" new_client)) in
  rq_timer <$> requests after !! 0 = Some false /\ timer_fired 0 after = after.
Proof.
  exact (response_cancels_timer "applications/list" (JObj []) [] "7f1c" "{}" (JObj [])
           new_client ltac:(constructor) eq_refl ltac:(discriminate)).
Defined.

Lemma start_refused_while_session_runs_witness :
  let topic := "dab/device-telemetry/metrics" in
  let data := [("frequency", JNum 1000)] in
  let st := fst (startDeviceTelemetryImpl topic data counter new_device) in
  startDeviceTelemetryImpl topic data counter st =
    (st, Normal [("status", JNum 400);
                 ("error", JStr "Device telemetry is already started, stop it first")]).
Proof.
  intros topic data st.
  exact (proj1 (start_refused_while_session_runs topic data counter st 0 eq_refl) eq_refl).
Defined.

Lemma device_session_publishes_every_period_witness :
  let topic := "dab/device-telemetry/metrics" in
  let st1 := fst (startDeviceTelemetryImpl topic [("frequency", JNum 1000)] counter new_device) in
  published st1 = [(topic, Sample (JNum 0))]
  /\ published (tick 0 (tick 0 st1)) =
       [(topic, Sample (JNum 0)); (topic, Sample (JNum 1)); (topic, Sample (JNum 2))].
Proof.
  intros topic st1.
  pose proof (device_session_publishes_every_period topic [("frequency", JNum 1000)]
                counter new_device (JNum 1000) eq_refl eq_refl eq_refl) as Hthm.
  cbv zeta in Hthm. destruct Hthm as (_ & Hok & _ & _).
  destruct (Hok (JNum 0) eq_refl eq_refl) as (_ & Hfirst & _ & Hperiod).
  split; [exact Hfirst|].
  destruct (Hperiod (tick 0 st1) eq_refl) as (_ & Hsecond & _).
  exact (Hsecond (JNum 2) eq_refl).
Defined.

Lemma stop_session_of_own_key_witness :
  let topic := "dab/device-telemetry/metrics" in
  let data := [("appId", JStr "youtube"); ("frequency", JNum 1000)] in
  stopAppTelemetry data new_device =
    (new_device, Normal [("status", JNum 400);
                         ("error", JStr "Device telemetry for ${data.app} not started")]).
Proof.
  intros topic data.
  exact (proj1 (stop_session_of_own_key data "youtube" new_device eq_refl) eq_refl).
Defined.

Lemma last_end_unsubscribes_witness :
  let st2 := subscribe "dab/messages" (Callback 1)
               (subscribe "dab/messages" (Callback 0) new_client) in
  let st3 := end_subscription "dab/messages" (Callback 0) st2 in
  let st4 := end_subscription "dab/messages" (Callback 1) st3 in
  transport st3 = [ClientSubscribe "dab/messages"; ClientSubscribe "dab/messages"]
  /\ transport st4 = [ClientSubscribe "dab/messages"; ClientSubscribe "dab/messages";
                      ClientUnsubscribe "dab/messages"]
  /\ emitter st4 = [].
Proof.
  intros st2 st3 st4.
  pose proof (last_end_unsubscribes "dab/messages" 0 1 new_client
                ltac:(discriminate) eq_refl eq_refl) as Hthm.
  cbv zeta in Hthm. destruct Hthm as (H2 & _ & H3 & He & H4).
  split; [exact (eq_trans H3 H2)|]. split; [|exact He].
  exact (eq_trans H4 (f_equal (fun t => t ++ [ClientUnsubscribe "dab/messages"]) H2)).
Defined.

Lemma timeout_rejects_and_restores_listeners_witness :
  let st1 := request "applications/list" (JObj []) [] "7f1c" new_client in
  outcome 0 (timer_fired 0 (subscribe_granted 0 st1))
  = Some (Rejected (ThrownError
            (TimeoutError "Failed to receive response from applications/list within 5000ms")))
  /\ emitter (subscribe_granted 0 (timer_fired 0 st1)) = [].
Proof.
  intros st1.
  pose proof (timeout_rejects_and_restores_listeners "applications/list" (JObj []) [] "7f1c"
                new_client ltac:(constructor) eq_refl) as Hthm.
  cbv zeta in Hthm. destruct Hthm as (Hearly & _ & _ & Hlate & _).
  split; [exact Hearly | exact Hlate].
Defined.

Lemma publish_options_over_defaults_witness :
  exists merged,
    transport (publish "dab/messages" (JObj []) [("qos", JNum 0)] new_client)
    = [ClientPublish "dab/messages" (JObj []) merged]
    /\ field "qos" merged = Some (JNum 0)
    /\ field "retain" merged = Some (JBool false).
Proof.
  destruct (publish_options_over_defaults "dab/messages" (JObj []) [("qos", JNum 0)] new_client
              ltac:(repeat constructor; set_solver)) as (merged & Ht & Hf & _).
  exists merged. split; [exact Ht|]. split; [exact (Hf "qos") | exact (Hf "retain")].
Defined.


(** A value is none of the elements of a list of literals. *)
Ltac absent :=
  let Hin := fresh "Hin" in
  intros Hin; repeat (apply elem_of_cons in Hin as [Hin|Hin]; [discriminate Hin|]);
  inversion Hin.

Lemma version_drops_last_component_witness :
  Version.version "2.1.0" = [("status", JNum 200); ("versions", JArr [JStr "2.1"])].
Proof.
  refine (version_drops_last_component "2.1" "0" eq_refl _).
  cbn. rewrite not_elem_of_cons. split; [discriminate | apply not_elem_of_nil].
Defined.

Lemma listApps_lists_installed_witness :
  (Apps.l_appMap
     (Apps.listApps (H0 := recorder) Handset.getPackages None Handset.entries [])).*1
  = ["youtube"; "settings"; "netflix"].
Proof.
  destruct (listApps_lists_installed (H0 := recorder) Handset.getPackages None
              Handset.entries [] _ _ eq_refl) as (_ & Hkeys & _).
  exact Hkeys.
Defined.

Lemma listApps_twice_witness :
  let r := Apps.listApps (H0 := recorder) Handset.getPackages None Handset.entries [] in
  Apps.l_appMap
    (Apps.listApps (H0 := recorder) Handset.getPackages None (Apps.l_appMap r) ["packages"])
  = Apps.l_appMap r.
Proof.
  exact (proj1 (listApps_twice (H0 := recorder) Handset.getPackages None Handset.entries
                  [] _ _ ["packages"] _ eq_refl eq_refl)).
Defined.

Lemma candidates_unknown_until_listed_witness :
  DabDevice.response
    (DabDevice.getAppState (list_to_map Handset.entries)
       (JObj [("appId", JStr "youtube")]) [])
  = Normal [("status", JNum 404);
            ("error", JStr "Couldn't find data for app youtube in config file")].
Proof.
  refine (proj1 (proj2 (proj2 (proj1
    (candidates_unknown_until_listed (H0 := recorder) Handset.getPackages None
       Handset.entries [] _ _ "youtube"
       _ (Handset.youtube "com.google.android.youtube.tv") [("appId", JStr "youtube")] []
       eq_refl _ _ _ _ _ eq_refl eq_refl))))).
  - cbn. repeat (apply NoDup_cons; split; [absent|]). apply NoDup_nil_2.
  - left.
  - right. left.
  - unfold Apps.installed. cbn. apply bool_decide_eq_true_2. right. left.
  - absent.
Defined.


Lemma end_removes_handlers_witness :
  let sv := Dispatcher.handle "applications/list" 0
              (Dispatcher.handle "applications/launch" 1 Dispatcher.new_server) in
  emitter (Dispatcher.end_handlers sv) = [].
Proof.
  intros sv.
  assert (Hnd : NoDup (emitter (Dispatcher.sv_client sv))).
  { vm_compute. apply NoDup_cons. split; [|apply NoDup_singleton].
    rewrite list_elem_of_singleton. discriminate. }
  pose proof (end_removes_handlers sv Hnd) as Hthm. cbv zeta in Hthm.
  destruct Hthm as (_ & Hmem & _).
  destruct (emitter (Dispatcher.end_handlers sv)) as [|ec rest]; [reflexivity|].
  exfalso. destruct (proj1 (Hmem ec) ltac:(left)) as [Hin Hnot]. exact (Hnot Hin).
Defined.

End Instances.
